(** * Verification of the letsencrypt renewer (src/letsencrypt/renewer.py)

    A shallow embedding of [renew] and [main] of the renewer tool, with the
    Python exceptions and the effects on the outside world (lineage store,
    notifications, calls to the issuance client) made explicit in an
    error-and-state monad. *)

From stdpp Require Import gmap strings list fin_maps.
From Stdlib Require Import ZArith Lia Ascii.

Open Scope string_scope.
Open Scope list_scope.

(** ** Python values, exceptions and builtins *)

(** The exceptions that can travel through [renew] and [main].
    [OtherError] stands for whatever a collaborator (plugin, client,
    certificate reader) raises on its own. *)
Inductive exn : Type :=
  | AttributeError
  | ValueError
  | TypeError
  | KeyError
  | IOError
  | OtherError (name : string).

Global Instance exn_eq_dec : EqDecision exn.
Proof. solve_decision. Defined.

(** Outcome of a call: a returned value or a raised exception. *)
Inductive result (A : Type) : Type :=
  | Ok (a : A)
  | Raise (e : exn).
Arguments Ok {A} a.
Arguments Raise {A} e.

(** What [renew] returns: ``False`` or the number of the new version. *)
Inductive pyret : Type :=
  | PyFalse
  | PyInt (n : nat).

Global Instance pyret_eq_dec : EqDecision pyret.
Proof. solve_decision. Defined.

(** [s.endswith(suffix)] *)
Definition endswith (s suffix : string) : bool :=
  String.prefix (String.rev suffix) (String.rev s).

(** [needle in s] for two strings: substring test. *)
Fixpoint contains (needle s : string) : bool :=
  String.prefix needle s ||
  match s with
  | EmptyString => false
  | String _ s' => contains needle s'
  end.

(** [os.path.join(a, b)] (posixpath, two arguments). *)
Definition path_join (a b : string) : string :=
  if String.prefix "/" b then b
  else if bool_decide (a = "") || endswith a "/" then a +:+ b
  else a +:+ "/" +:+ b.

(** [int(s)] on text (Python 2, base 10): surrounding white space is
    stripped, one sign is allowed, then at least one decimal digit and
    nothing else.  [None] stands for the [ValueError] of the builtin. *)
Fixpoint lstrip (s : string) : string :=
  match s with
  | String a s' => if Ascii.is_space a then lstrip s' else s
  | EmptyString => EmptyString
  end.

Definition strip (s : string) : string :=
  String.rev (lstrip (String.rev (lstrip s))).

Fixpoint digits_value (acc : Z) (s : string) : option Z :=
  match s with
  | EmptyString => Some acc
  | String a s' =>
      match Ascii.is_nat a with
      | Some d => digits_value (10 * acc + Z.of_nat d)%Z s'
      | None => None
      end
  end.

Definition unsigned_int (s : string) : option Z :=
  match s with
  | EmptyString => None
  | _ => digits_value 0%Z s
  end.

Definition py_int (s : string) : option Z :=
  match strip s with
  | String "-"%char s' => Z.opp <$> unsigned_int s'
  | String "+"%char s' => unsigned_int s'
  | s' => unsigned_int s'
  end.

(** ** configobj *)

(** A scalar of a ConfigObj: text, or the list of texts that configobj
    makes of a comma-separated value ([rsa_key_size = 2,048]). *)
Inductive value : Type :=
  | Text (s : string)
  | ListValue (l : list string).

Global Instance value_eq_dec : EqDecision value.
Proof. solve_decision. Defined.

(** An item of a ConfigObj: a scalar or a subsection of scalars.  The
    renewal configuration files are flat key-value text with subsections
    one level deep. *)
Inductive entry : Type :=
  | Scalar (v : value)
  | Section_ (m : gmap string value).

Record ConfigObj : Type := mkConfigObj {
  items : gmap string entry;
  filename : option string
}.

(** What [ConfigObj.merge] does at one key present on both sides: two
    sections are merged key by key, the merged-in one winning; anything
    else is replaced. *)
Definition merge_entry (old new : entry) : entry :=
  match old, new with
  | Section_ m1, Section_ m2 => Section_ (m2 ∪ m1)
  | _, _ => new
  end.

(** [self.merge(indict)]: every key of [indict] is written into [self]. *)
Definition merge (self indict : ConfigObj) : ConfigObj :=
  {| items := union_with (λ old new, Some (merge_entry old new))
                         (items self) (items indict);
     filename := filename self |}.

Definition set_filename (c : ConfigObj) (f : string) : ConfigObj :=
  {| items := items c; filename := Some f |}.

(** ** The lineage store *)

(** One version of a lineage: its three artifacts, as PEM text. *)
Record Version : Type := mkVersion {
  cert_pem : string;
  privkey_pem : string;
  chain_pem : string
}.

(** Modelled from the spec: the on-disk lineage object of
    [letsencrypt.storage] is not part of the source at hand.  Following
    the data model of the spec, a lineage is a gap-free sequence of
    versions numbered from 1 (version [n] is the [n]-th entry) together
    with one "current" pointer per artifact kind. *)
Record Lineage : Type := mkLineage {
  versions : list Version;
  current_cert : nat;
  current_privkey : nat;
  current_chain : nat
}.

Definition empty_lineage : Lineage := mkLineage [] 0 0 0.

(** ** Collaborators *)

(** [configuration.NamespaceConfig(_AttrDict(renewalparams))] after the
    two numeric attributes have been overwritten with integers. *)
Record NamespaceConfig : Type := mkNamespaceConfig {
  namespace : gmap string value;
  rsa_key_size : Z;
  dvsni_port : Z
}.

(** An initialised authenticator plugin: [prepare()] returns nothing or
    raises. *)
Record Authenticator : Type := mkAuthenticator {
  auth_name : string;
  prepare : result unit
}.

(** An entry of the plugin registry. *)
Record PluginEntryPoint : Type := mkPluginEntryPoint {
  init : NamespaceConfig → Authenticator
}.

(** [client.Client(config, account, authenticator, None)] *)
Record Client : Type := mkClient {
  client_config : NamespaceConfig;
  client_account : string;
  client_authenticator : Authenticator
}.

(** The tuple returned by [obtain_certificate]; certificate, key and
    chain are represented by their PEM text, the chain may be [None]. *)
Record Issued : Type := mkIssued {
  new_certr : string;
  new_chain : option string;
  new_key : string;
  new_csr : string
}.

(** [storage.RenewableCert]: the configuration file it was built from
    ([configfile], which [renew] reads), the configuration in effect for
    the lineage and the lineage it stands for.

    Modelled from the spec: the class is not part of the source at hand;
    per the data model of the spec a lineage has a configuration record
    merged from the global defaults, the renewer-wide configuration file
    and the configuration file of the lineage. *)
Record RenewableCert : Type := mkRenewableCert {
  configfile : ConfigObj;
  configuration : ConfigObj;
  lineage : string
}.

(** [configuration.RenewerConfiguration]: the two paths [main] reads. *)
Record RenewerConfiguration : Type := mkRenewerConfiguration {
  renewer_config_file : string;
  renewal_configs_dir : string
}.

(** Calls that leave the process or change the store, in the order in
    which they happen. *)
Inductive Event : Type :=
  | EvPrint (line : string)
  | EvPrepare (authenticator : string)
  | EvDetermineAccount
  | EvObtainCertificate (our_client : Client) (sans : list string)
  | EvSaveSuccessor (lineage : string) (prior_version : nat)
                    (new_cert new_privkey new_chain : string)
  | EvUpdateAllLinks (lineage : string) (version : nat)
  | EvNotify (subject whom what : string).

(** The world outside the renewer: every lineage on disk, keyed by the
    path of its renewal configuration file, and the calls made so far. *)
Record World : Type := mkWorld {
  lineages : gmap string Lineage;
  trace : list Event
}.

(** ** Exceptions and effects *)

Definition M (A : Type) : Type := World → result A * World.

Global Instance M_ret : MRet M := λ A a w, (Ok a, w).

Global Instance M_bind : MBind M := λ A B f m w,
  match m w with
  | (Ok a, w') => f a w'
  | (Raise e, w') => (Raise e, w')
  end.

Definition raise {A} (e : exn) : M A := λ w, (Raise e, w).

Definition lift {A} (r : result A) : M A := λ w, (r, w).

Definition emit (ev : Event) : M unit :=
  λ w, (Ok tt, mkWorld (lineages w) (trace w ++ [ev])).

(** [for i in l: body(i)] *)
Fixpoint for_each {A} (l : list A) (body : A → M unit) : M unit :=
  match l with
  | [] => mret tt
  | i :: l' => body i ;; for_each l' body
  end.

(** *** Operations of the lineage store *)

Definition lineage_of (w : World) (cert : RenewableCert) : Lineage :=
  default empty_lineage (lineages w !! lineage cert).

Definition set_lineage (cert : RenewableCert) (l : Lineage) (w : World)
  : World :=
  mkWorld (<[lineage cert := l]> (lineages w)) (trace w).

(** Modelled from the spec: [RenewableCert.latest_common_version] is
    missing; the spec's [latestVersion()] returns the highest recorded
    version number. *)
Definition latest_common_version (cert : RenewableCert) : M nat :=
  λ w, (Ok (length (versions (lineage_of w cert))), w).

Definition version_at (l : Lineage) (version : nat) : option Version :=
  match version with
  | O => None
  | S n => versions l !! n
  end.

(** Modelled from the spec: [RenewableCert.version] is missing;
    [open(cert.version("cert", v)).read()] yields the certificate
    artifact of version [v] and fails if the version is absent. *)
Definition read_cert_version (cert : RenewableCert) (version : nat)
  : M string :=
  λ w, match version_at (lineage_of w cert) version with
       | Some v => (Ok (cert_pem v), w)
       | None => (Raise IOError, w)
       end.

(** Modelled from the spec: [RenewableCert.save_successor] is missing;
    the spec's [saveSuccessor] creates a new version and returns its
    number, the number after the highest recorded one.  No "current"
    pointer moves. *)
Definition save_successor (cert : RenewableCert) (prior_version : nat)
    (new_cert new_privkey new_chain : string) : M nat :=
  λ w,
    let l := lineage_of w cert in
    let l' := mkLineage (versions l ++ [mkVersion new_cert new_privkey new_chain])
                        (current_cert l) (current_privkey l) (current_chain l) in
    let w' := set_lineage cert l' w in
    (Ok (length (versions l')),
     mkWorld (lineages w')
             (trace w' ++ [EvSaveSuccessor (lineage cert) prior_version
                                           new_cert new_privkey new_chain])).

(** Modelled from the spec: [RenewableCert.update_all_links_to] is
    missing; the spec's [advanceCurrentTo] repoints all "current"
    artifacts to the given version. *)
Definition update_all_links_to (cert : RenewableCert) (version : nat)
  : M unit :=
  λ w,
    let l := lineage_of w cert in
    let w' := set_lineage cert (mkLineage (versions l) version version version) w in
    (Ok tt, mkWorld (lineages w')
                    (trace w' ++ [EvUpdateAllLinks (lineage cert) version])).

(** [notify.notify(subject, whom, what)] *)
Definition notify (subject whom what : string) : M unit :=
  emit (EvNotify subject whom what).

(** ** The renewer *)

(** [getattr(namespace, name)] on the attribute dictionary. *)
Definition getattr (ns : gmap string value) (name : string) : result value :=
  match ns !! name with
  | Some v => Ok v
  | None => Raise AttributeError
  end.

(** [int(v)]: [ValueError] on text that is not a number, [TypeError] on
    a list. *)
Definition int (v : value) : result Z :=
  match v with
  | Text text =>
      match py_int text with
      | Some z => Ok z
      | None => Raise ValueError
      end
  | ListValue _ => Raise TypeError
  end.

(** [configobj.ConfigObj(path)]: the parsed content of the file, or the
    exception configobj raises on a file it cannot read or parse.  A file
    that does not exist reads as empty. *)
Definition ConfigObj_load (read_file : string → result (gmap string entry))
    (path : string) : result ConfigObj :=
  match read_file path with
  | Ok content => Ok (mkConfigObj content (Some path))
  | Raise e => Raise e
  end.

Ltac mrun :=
  unfold mbind, M_bind, mret, M_ret, lift, raise, emit, getattr, int; simpl.

(** Closes the three parts of a statement about the events a run adds:
    the shape of the trace, the issuance events (left to the caller when
    there is one) and the outcome. *)
Ltac finish_run :=
  simpl; rewrite <- ?app_assoc, ?app_nil_r; simpl;
  split_and!; try done;
  try (intros ? ? Hin;
       repeat (apply elem_of_cons in Hin as [Hin|Hin]; [try discriminate|]);
       [..|by apply elem_of_nil in Hin]; revert Hin).

(** [EvSaveSuccessor] events, to count the calls of [save_successor]. *)
Definition is_save_successor (ev : Event) : bool :=
  match ev with
  | EvSaveSuccessor _ _ _ _ _ => true
  | _ => false
  end.

(** A numeric field holds numeric text when it is present and [int]
    accepts it. *)
Definition numeric_field (rp : gmap string value) (k : string) : Prop :=
  ∃ text z, rp !! k = Some (Text text) ∧ py_int text = Some z.

(** Non-numeric text in a field: present, and [int] refuses it. *)
Definition non_numeric_field (rp : gmap string value) (k : string) : Prop :=
  ∃ text, rp !! k = Some (Text text) ∧ py_int text = None.

(** A field that is missing, or holds something that is not numeric text:
    text that [int] refuses, or a list. *)
Definition missing_or_non_numeric (rp : gmap string value) (k : string) : Prop :=
  rp !! k = None ∨ non_numeric_field rp k ∨ ∃ l, rp !! k = Some (ListValue l).

(** The world once the deployment step has run on a lineage that is due:
    all three "current" pointers at the latest recorded version, the
    versions as they were, and the two calls recorded. *)
Definition deployed (cert : RenewableCert) (w : World) : World :=
  mkWorld
    (<[lineage cert :=
         mkLineage (versions (lineage_of w cert))
                   (length (versions (lineage_of w cert)))
                   (length (versions (lineage_of w cert)))
                   (length (versions (lineage_of w cert)))]> (lineages w))
    (trace w ++ [EvUpdateAllLinks (lineage cert)
                   (length (versions (lineage_of w cert)));
                 EvNotify "Autodeployed a cert!!!" "root" "It worked!"]).

(** What the spec says of one key of the configuration in effect: a
    later layer that sets the key overrides the earlier one, two sections
    being merged key by key with the later one winning; a later layer
    that leaves the key unset lets the earlier one through. *)
Definition later_overrides (earlier later : option entry) : option entry :=
  match later with
  | None => earlier
  | Some (Scalar v) => Some (Scalar v)
  | Some (Section_ m2) =>
      match earlier with
      | Some (Section_ m1) => Some (Section_ (m2 ∪ m1))
      | _ => Some (Section_ m2)
      end
  end.

(** The world once ["Processing", i] has been printed. *)
Definition printed (i : string) (w : World) : World :=
  mkWorld (lineages w) (trace w ++ [EvPrint ("Processing " +:+ i)]).

(** The world once a notification has been sent. *)
Definition notified (subject : string) (w : World) : World :=
  mkWorld (lineages w) (trace w ++ [EvNotify subject "root" "It worked!"]).

(** The order in which [renew] may call out: [prepare()], then the
    account, then the issuance client, then [save_successor], stopping
    anywhere. *)
Definition call_order (evs : list Event) : bool :=
  match evs with
  | [] => true
  | [EvPrepare _] => true
  | [EvPrepare _; EvDetermineAccount] => true
  | [EvPrepare _; EvDetermineAccount; EvObtainCertificate _ _] => true
  | [EvPrepare _; EvDetermineAccount; EvObtainCertificate _ _;
     EvSaveSuccessor _ _ _ _ _] => true
  | _ => false
  end.

(** How a run may change the world: lineages outside [allowed] are left
    alone, the versions recorded for a lineage are only ever added to, and
    the record of outside calls is only ever added to. *)
Definition store_grows (allowed : string → Prop) (w w' : World) : Prop :=
  (∀ k, ¬ allowed k → lineages w' !! k = lineages w !! k) ∧
  (∀ k, versions (default empty_lineage (lineages w !! k)) `prefix_of`
        versions (default empty_lineage (lineages w' !! k))) ∧
  (∃ evs, trace w' = trace w ++ evs).

(** ["Processing", i] lines. *)
Definition is_print (ev : Event) : bool :=
  match ev with
  | EvPrint _ => true
  | _ => false
  end.

(** The line [main] prints for a directory entry. *)
Definition processing_line (i : string) : Event :=
  EvPrint ("Processing " +:+ i).

(** A run that prints nothing. *)
Definition quiet (w w' : World) : Prop :=
  ∃ evs, trace w' = trace w ++ evs ∧ filter is_print evs = [].

(** ** A sample installation

    Two lineages under [/etc/letsencrypt/configs], a registry with a
    working and a misconfigured authenticator, and an issuance client that
    completes the challenge on port 443 only. *)

Definition ex_org : string := "/etc/letsencrypt/configs/example.org.conf".
Definition ex_net : string := "/etc/letsencrypt/configs/example.net.conf".

Definition ex_renewalparams : gmap string value :=
  {[ "authenticator" := Text "standalone"; "rsa_key_size" := Text "2048";
     "dvsni_port" := Text "443" ]}.

Definition ex_items (rp : gmap string value) : gmap string entry :=
  {[ "cert" := Scalar (Text "/etc/letsencrypt/live/example.org/cert.pem");
     "renewalparams" := Section_ rp ]}.

Definition ex_config_with_defaults (config : option ConfigObj) : ConfigObj :=
  mkConfigObj {[ "renew_before_expiry" := Scalar (Text "30 days") ]} None.

Definition ex_cert (rp : gmap string value) : RenewableCert :=
  mkRenewableCert (mkConfigObj (ex_items rp) (Some ex_org))
                  (merge (ex_config_with_defaults None)
                         (mkConfigObj (ex_items rp) (Some ex_org)))
                  ex_org.

Definition ex_registry : gmap string PluginEntryPoint :=
  {[ "standalone" :=
       mkPluginEntryPoint (λ _, mkAuthenticator "standalone" (Ok tt));
     "apache" :=
       mkPluginEntryPoint
         (λ _, mkAuthenticator "apache" (Raise (OtherError "MisconfigurationError"))) ]}.

Definition ex_determine_account (config : NamespaceConfig) : result string :=
  Ok "account".

Definition ex_obtain_certificate (c : Client) (sans : list string)
  : result Issued :=
  Ok (mkIssued "CERT-2"
               (if bool_decide (dvsni_port (client_config c) = 443%Z)
                then Some "CHAIN-2" else None)
               "KEY-2" "CSR-2").

Definition ex_get_sans_from_cert (pem : string) : result (list string) :=
  if bool_decide (pem = "CERT-1") then Ok ["example.org"; "www.example.org"]
  else Raise (OtherError "Error").

Definition ex_world : World :=
  mkWorld {[ ex_org := mkLineage [mkVersion "CERT-1" "KEY-1" "CHAIN-1"] 1 1 1;
             ex_net := mkLineage [mkVersion "CERT-1" "KEY-1" "CHAIN-1"] 1 1 1 ]}
          [].

Definition ex_cli_config : RenewerConfiguration :=
  mkRenewerConfiguration "/etc/letsencrypt/renewer.conf"
                         "/etc/letsencrypt/configs".

Definition ex_parse_args (args : list string) : result RenewerConfiguration :=
  Ok ex_cli_config.

Definition ex_listdir (dir : string) : result (list string) :=
  if bool_decide (dir = "/etc/letsencrypt/configs")
  then Ok ["example.org.conf"; "example.net.conf"]
  else Raise (OtherError "OSError").

(** The files on disk: the configuration of example.org holds the given
    items, the one of example.net is in order, the renewer-wide file is
    absent. *)
Definition ex_read_file (org : gmap string entry) (path : string)
  : result (gmap string entry) :=
  if bool_decide (path = ex_org) then Ok org
  else if bool_decide (path = ex_net) then Ok (ex_items ex_renewalparams)
  else Ok ∅.

Definition ex_required_fields : list string := ["cert"].

Definition ex_always (cert : RenewableCert) (l : Lineage) : bool := true.
Definition ex_never (cert : RenewableCert) (l : Lineage) : bool := false.

(** Only example.org is due. *)
Definition ex_org_only (cert : RenewableCert) (l : Lineage) : bool :=
  bool_decide (lineage cert = ex_org).

(** The client [renew] builds from [ex_renewalparams]. *)
Definition ex_client : Client :=
  mkClient (mkNamespaceConfig ex_renewalparams 2048 443) "account"
           (mkAuthenticator "standalone" (Ok tt)).

(** Renewal parameters naming an authenticator the registry does not
    have. *)
Definition ex_unknown : gmap string value :=
  <["authenticator" := Text "nginx"]> ex_renewalparams.

(** The same with a challenge port that is not a number. *)
Definition ex_unknown_bad_port : gmap string value :=
  <["dvsni_port" := Text "https"]> ex_unknown.

(** Renewal parameters with a key size that is not a number. *)
Definition ex_bad_key_size : gmap string value :=
  <["rsa_key_size" := Text "abc"]> ex_renewalparams.

(** Renewal parameters with a key size written with a comma, which
    configobj reads as a list. *)
Definition ex_list_key_size : gmap string value :=
  <["rsa_key_size" := ListValue ["2"; "048"]]> ex_renewalparams.

(** Renewal parameters naming the misconfigured authenticator. *)
Definition ex_misconfigured : gmap string value :=
  <["authenticator" := Text "apache"]> ex_renewalparams.

(** A lineage configuration without a renewalparams block. *)
Definition ex_no_renewalparams : gmap string entry :=
  {[ "cert" := Scalar (Text "/etc/letsencrypt/live/example.org/cert.pem") ]}.

(** The files on disk when the configuration of example.org cannot be
    parsed. *)
Definition ex_read_file_malformed (path : string) : result (gmap string entry) :=
  if bool_decide (path = ex_org) then Raise (OtherError "ParseError")
  else ex_read_file ∅ path.

(** A lineage kept outside the directory of renewal configurations, and
    the sample world with it. *)
Definition ex_other : string := "/srv/certs/other.conf".

Definition ex_world_other : World :=
  mkWorld (<[ex_other := mkLineage [mkVersion "CERT-9" "KEY-9" "CHAIN-9"] 1 1 1]>
             (lineages ex_world))
          [].

Section Renewer.

(** [plugins_disco.PluginsRegistry.find_all()] *)
Variable find_all : gmap string PluginEntryPoint.
(** [client.determine_account] *)
Variable determine_account : NamespaceConfig → result string.
(** [Client.obtain_certificate] *)
Variable obtain_certificate : Client → list string → result Issued.
(** [crypto_util.get_sans_from_cert] *)
Variable get_sans_from_cert : string → result (list string).
(** [RenewableCert.should_autorenew], [RenewableCert.should_autodeploy]:
    predicates over the configuration and the stored state. *)
Variable should_autorenew : RenewableCert → Lineage → bool.
Variable should_autodeploy : RenewableCert → Lineage → bool.
(** The fields a renewal configuration must have for
    [storage.RenewableCert] to accept it. *)
Variable required_fields : list string.
(** [storage.config_with_defaults] *)
Variable config_with_defaults : option ConfigObj → ConfigObj.
(** [configuration.RenewerConfiguration(_create_parser().parse_args(args))];
    argparse leaves the process on arguments it does not accept. *)
Variable parse_args : list string → result RenewerConfiguration.
(** [os.listdir], which raises on a directory it cannot list, and the
    parsed content of the configuration files, where configobj raises on
    a file it cannot parse. *)
Variable listdir : string → result (list string).
Variable read_file : string → result (gmap string entry).

(** [authenticator.prepare()] *)
Definition call_prepare (authenticator : Authenticator) : M unit :=
  emit (EvPrepare (auth_name authenticator)) ;; lift (prepare authenticator).

(** [client.determine_account(config)] *)
Definition call_determine_account (config : NamespaceConfig) : M string :=
  emit EvDetermineAccount ;; lift (determine_account config).

(** [our_client.obtain_certificate(sans)] *)
Definition call_obtain_certificate (our_client : Client) (sans : list string)
  : M Issued :=
  emit (EvObtainCertificate our_client sans) ;; lift (obtain_certificate our_client sans).

(** [renew(cert, old_version)], lines 39-98. *)
Definition renew (cert : RenewableCert) (old_version : nat) : M pyret :=
  match items (configfile cert) !! "renewalparams" with
  | None => mret PyFalse
  | Some (Scalar (Text text)) =>
      (* [in] on text is a substring test; [dict(text)] raises *)
      if negb (contains "authenticator" text) then mret PyFalse
      else raise ValueError
  | Some (Scalar (ListValue l)) =>
      (* [in] on a list is membership; [dict(l)] raises on an element
         that is not a pair *)
      if negb (bool_decide ("authenticator" ∈ l)) then mret PyFalse
      else raise ValueError
  | Some (Section_ renewalparams) =>
      match renewalparams !! "authenticator" with
      | None => mret PyFalse
      | Some name =>
          let plugins := find_all in
          key_size_value ← lift (getattr renewalparams "rsa_key_size");
          key_size ← lift (int key_size_value);
          port_value ← lift (getattr renewalparams "dvsni_port");
          port ← lift (int port_value);
          let config := mkNamespaceConfig renewalparams key_size port in
          match name with
          | ListValue _ => (* a list is no key of the registry *) raise TypeError
          | Text name =>
              match plugins !! name with
              | None => (* KeyError *) mret PyFalse
              | Some entry_point =>
                  let authenticator := init entry_point config in
                  call_prepare authenticator ;;
                  account ← call_determine_account config;
                  let our_client := mkClient config account authenticator in
                  pem ← read_cert_version cert old_version;
                  sans ← lift (get_sans_from_cert pem);
                  issued ← call_obtain_certificate our_client sans;
                  match new_chain issued with
                  | Some chain =>
                      n ← save_successor cert old_version (new_certr issued)
                                         (new_key issued) chain;
                      mret (PyInt n)
                  | None => mret PyFalse
                  end
              end
          end
      end
  end.

(** Modelled from the spec: the constructor of [storage.RenewableCert]
    is missing.  Per the spec the configuration in effect for the lineage
    is the global defaults with the configuration it is given merged over
    them, and the construction fails (with the [ValueError] that [main]
    catches) when a required field is missing from it. *)
Definition RenewableCert_init (rc_config : ConfigObj)
    (cli_config : RenewerConfiguration) : result RenewableCert :=
  let configuration := merge (config_with_defaults None) rc_config in
  if forallb (λ k, bool_decide (is_Some (items configuration !! k))) required_fields
  then Ok (mkRenewableCert rc_config configuration (default "" (filename rc_config)))
  else Raise ValueError.

(** The renewer defaults of [main], lines 135-143: the built-in defaults
    with the renewer-wide configuration file merged over them. *)
Definition renewer_defaults (config : option ConfigObj)
    (cli_config : RenewerConfiguration) : result ConfigObj :=
  let config := config_with_defaults config in
  match ConfigObj_load read_file (renewer_config_file cli_config) with
  | Ok renewer => Ok (merge config renewer)
  | Raise e => Raise e
  end.

(** The configuration of one lineage, lines 149-153. *)
Definition rc_config_of (cli_config : RenewerConfiguration) (i : string)
  : result ConfigObj :=
  match ConfigObj_load read_file (renewer_config_file cli_config) with
  | Raise e => Raise e
  | Ok rc_config =>
      match ConfigObj_load read_file
              (path_join (renewal_configs_dir cli_config) i) with
      | Raise e => Raise e
      | Ok lineage_config =>
          Ok (set_filename (merge rc_config lineage_config)
                           (path_join (renewal_configs_dir cli_config) i))
      end
  end.

(** Lines 172-179. *)
Definition autorenew (cert : RenewableCert) : M unit :=
  λ w,
    if should_autorenew cert (lineage_of w cert) then
      (old_version ← latest_common_version cert;
       renew cert old_version ;;
       notify "Autorenewed a cert!!!" "root" "It worked!") w
    else (Ok tt, w).

(** Lines 180-183. *)
Definition autodeploy (cert : RenewableCert) : M unit :=
  λ w,
    if should_autodeploy cert (lineage_of w cert) then
      (latest ← latest_common_version cert;
       update_all_links_to cert latest ;;
       notify "Autodeployed a cert!!!" "root" "It worked!") w
    else (Ok tt, w).

(** The body of the loop of [main], lines 146-183. *)
Definition main_body (cli_config : RenewerConfiguration) (i : string)
  : M unit :=
  emit (EvPrint ("Processing " +:+ i)) ;;
  if negb (endswith i ".conf") then mret tt
  else
    rc_config ← lift (rc_config_of cli_config i);
    match RenewableCert_init rc_config cli_config with
    | Raise ValueError => mret tt
    | Raise e => raise e
    | Ok cert => autorenew cert ;; autodeploy cert
    end.

(** [main(config, args)], lines 122-183. *)
Definition main (config : option ConfigObj) (args : list string) : M unit :=
  cli_config ← lift (parse_args args);
  config ← lift (renewer_defaults config cli_config);
  entries ← lift (listdir (renewal_configs_dir cli_config));
  for_each entries (main_body cli_config).

(** *** The runs of [renew]

    The ways a run of [renew] can go once the authenticator has been
    initialised (lines 77-98), each with its outcome and the world it
    leaves. *)
Inductive attempt_run (authenticator : Authenticator) (config : NamespaceConfig)
    (cert : RenewableCert) (old_version : nat) (w : World)
  : result pyret → World → Prop :=
  | attempt_prepare_raises e :
      prepare authenticator = Raise e →
      attempt_run authenticator config cert old_version w (Raise e)
        (mkWorld (lineages w) (trace w ++ [EvPrepare (auth_name authenticator)]))
  | attempt_account_raises e :
      prepare authenticator = Ok tt →
      determine_account config = Raise e →
      attempt_run authenticator config cert old_version w (Raise e)
        (mkWorld (lineages w)
           (trace w ++ [EvPrepare (auth_name authenticator); EvDetermineAccount]))
  | attempt_version_absent account :
      prepare authenticator = Ok tt →
      determine_account config = Ok account →
      version_at (lineage_of w cert) old_version = None →
      attempt_run authenticator config cert old_version w (Raise IOError)
        (mkWorld (lineages w)
           (trace w ++ [EvPrepare (auth_name authenticator); EvDetermineAccount]))
  | attempt_sans_raises account v e :
      prepare authenticator = Ok tt →
      determine_account config = Ok account →
      version_at (lineage_of w cert) old_version = Some v →
      get_sans_from_cert (cert_pem v) = Raise e →
      attempt_run authenticator config cert old_version w (Raise e)
        (mkWorld (lineages w)
           (trace w ++ [EvPrepare (auth_name authenticator); EvDetermineAccount]))
  | attempt_issuance_raises account v sans e :
      prepare authenticator = Ok tt →
      determine_account config = Ok account →
      version_at (lineage_of w cert) old_version = Some v →
      get_sans_from_cert (cert_pem v) = Ok sans →
      obtain_certificate (mkClient config account authenticator) sans = Raise e →
      attempt_run authenticator config cert old_version w (Raise e)
        (mkWorld (lineages w)
           (trace w ++ [EvPrepare (auth_name authenticator); EvDetermineAccount;
                        EvObtainCertificate (mkClient config account authenticator) sans]))
  | attempt_no_chain account v sans issued :
      prepare authenticator = Ok tt →
      determine_account config = Ok account →
      version_at (lineage_of w cert) old_version = Some v →
      get_sans_from_cert (cert_pem v) = Ok sans →
      obtain_certificate (mkClient config account authenticator) sans = Ok issued →
      new_chain issued = None →
      attempt_run authenticator config cert old_version w (Ok PyFalse)
        (mkWorld (lineages w)
           (trace w ++ [EvPrepare (auth_name authenticator); EvDetermineAccount;
                        EvObtainCertificate (mkClient config account authenticator) sans]))
  | attempt_saved account v sans issued chain :
      prepare authenticator = Ok tt →
      determine_account config = Ok account →
      version_at (lineage_of w cert) old_version = Some v →
      get_sans_from_cert (cert_pem v) = Ok sans →
      obtain_certificate (mkClient config account authenticator) sans = Ok issued →
      new_chain issued = Some chain →
      attempt_run authenticator config cert old_version w
        (Ok (PyInt (S (length (versions (lineage_of w cert))))))
        (mkWorld
           (<[lineage cert :=
                mkLineage (versions (lineage_of w cert) ++
                             [mkVersion (new_certr issued) (new_key issued) chain])
                          (current_cert (lineage_of w cert))
                          (current_privkey (lineage_of w cert))
                          (current_chain (lineage_of w cert))]> (lineages w))
           (trace w ++ [EvPrepare (auth_name authenticator); EvDetermineAccount;
                        EvObtainCertificate (mkClient config account authenticator) sans;
                        EvSaveSuccessor (lineage cert) old_version (new_certr issued)
                                        (new_key issued) chain])).

(** The ways a run of [renew] can go as a whole: it returns ``False`` or
    raises on the configuration before any outside call, or it reaches the
    authenticator named in the renewalparams block. *)
Inductive renew_run (cert : RenewableCert) (old_version : nat) (w : World)
  : result pyret → World → Prop :=
  | run_not_renewed :
      renew_run cert old_version w (Ok PyFalse) w
  | run_bad_configuration e :
      e = AttributeError ∨ e = ValueError ∨ e = TypeError →
      renew_run cert old_version w (Raise e) w
  | run_attempt rp name ks ps size port entry_point r w' :
      items (configfile cert) !! "renewalparams" = Some (Section_ rp) →
      rp !! "authenticator" = Some (Text name) →
      rp !! "rsa_key_size" = Some (Text ks) → py_int ks = Some size →
      rp !! "dvsni_port" = Some (Text ps) → py_int ps = Some port →
      find_all !! name = Some entry_point →
      attempt_run (init entry_point (mkNamespaceConfig rp size port))
                  (mkNamespaceConfig rp size port) cert old_version w r w' →
      renew_run cert old_version w r w'.

(** ** Properties *)

Lemma numeric_field_dec (rp : gmap string value) (k : string) :
  {numeric_field rp k} + {¬ numeric_field rp k}.
Proof.
  unfold numeric_field.
  destruct (rp !! k) as [[text|l]|];
    [|right; intros (? & ? & ? & _); done..].
  destruct (py_int text) as [z|] eqn:Hz; [left; eauto|].
  right. intros (? & ? & [= <-] & ?). congruence.
Qed.

Lemma not_numeric_field (rp : gmap string value) (k : string) :
  missing_or_non_numeric rp k ↔ ¬ numeric_field rp k.
Proof.
  unfold missing_or_non_numeric, numeric_field, non_numeric_field. split.
  - intros [Hk|[(text & Hk & Hz)|(l & Hk)]] (text' & z & Hk' & Hz'); congruence.
  - intros Hn. destruct (rp !! k) as [[text|l]|] eqn:Hk; [|eauto|by left].
    right. left. exists text. split; [done|].
    destruct (py_int text) as [z|] eqn:Hz; [|done].
    destruct Hn. by exists text, z.
Qed.

(** The coercions of lines 68-69 in one step. *)
Lemma coerce_ok (rp : gmap string value) ks size ps port {A} (k : Z → Z → M A) w :
  rp !! "rsa_key_size" = Some (Text ks) → py_int ks = Some size →
  rp !! "dvsni_port" = Some (Text ps) → py_int ps = Some port →
  (key_size_value ← lift (getattr rp "rsa_key_size");
   key_size ← lift (int key_size_value);
   port_value ← lift (getattr rp "dvsni_port");
   port ← lift (int port_value);
   k key_size port) w = k size port w.
Proof. intros H1 H2 H3 H4. mrun. by rewrite H1, H2, H3, H4. Qed.

(** Past the two presence checks, a numeric field that is missing or
    does not hold numeric text makes [renew] raise before anything else
    happens, whatever the authenticator entry holds. *)
Lemma renew_bad_fields (cert : RenewableCert) (rp : gmap string value)
    (name : value) :
  items (configfile cert) !! "renewalparams" = Some (Section_ rp) →
  rp !! "authenticator" = Some name →
  ¬ (numeric_field rp "rsa_key_size" ∧ numeric_field rp "dvsni_port") →
  ∃ e, ∀ old_version w, renew cert old_version w = (Raise e, w).
Proof.
  intros Hrp Hauth Hbad. unfold renew. rewrite Hrp, Hauth. mrun.
  destruct (rp !! "rsa_key_size") as [[ks|]|] eqn:H1; [|eauto..].
  destruct (py_int ks) as [size|] eqn:H2; [|eauto].
  destruct (rp !! "dvsni_port") as [[ps|]|] eqn:H3; [|eauto..].
  destruct (py_int ps) as [port|] eqn:H4; [|eauto].
  destruct Hbad. split; [by exists ks, size | by exists ps, port].
Qed.

(** C7: a lineage whose configuration has no renewalparams block, or
    whose renewalparams block has no authenticator name, is not renewed:
    [renew] returns ``False``, raises nothing and leaves the world (the
    store and the record of outside calls) exactly as it was. *)
Theorem renew_not_renewable (cert : RenewableCert) (old_version : nat) (w : World) :
  (items (configfile cert) !! "renewalparams" = None ∨
   ∃ rp, items (configfile cert) !! "renewalparams" = Some (Section_ rp) ∧
         rp !! "authenticator" = None) →
  renew cert old_version w = (Ok PyFalse, w).
Proof.
  intros [Hnone|(rp & Hrp & Hauth)]; unfold renew.
  - by rewrite Hnone.
  - by rewrite Hrp, Hauth.
Qed.

(** C8 (amended): when the renewalparams block names an authenticator
    that the plugin registry does not know, and both numeric fields hold
    numeric text, [renew] returns ``False``, raises nothing and leaves the
    world as it was. *)
Theorem renew_unknown_authenticator (cert : RenewableCert) (old_version : nat)
    (w : World) (rp : gmap string value) (name : string) :
  items (configfile cert) !! "renewalparams" = Some (Section_ rp) →
  rp !! "authenticator" = Some (Text name) →
  find_all !! name = None →
  numeric_field rp "rsa_key_size" →
  numeric_field rp "dvsni_port" →
  renew cert old_version w = (Ok PyFalse, w).
Proof.
  intros Hrp Hauth Hreg (ks & size & Hks & Hsize) (ps & port & Hps & Hport).
  unfold renew. rewrite Hrp, Hauth.
  rewrite (coerce_ok rp ks size ps port) by done.
  by rewrite Hreg.
Qed.

(** C10 (amended): past the two presence checks, that is for a lineage
    whose renewalparams block has an authenticator entry, the two numeric
    fields are coerced before the registry is consulted: if either is
    missing or non-numeric, [renew] raises an exception whatever the
    registry holds, with the world untouched; so [renew] returns only if
    both hold numeric text. *)
Theorem renew_coerces_before_lookup (cert : RenewableCert) (old_version : nat)
    (w : World) (rp : gmap string value) (name : value) :
  items (configfile cert) !! "renewalparams" = Some (Section_ rp) →
  rp !! "authenticator" = Some name →
  (missing_or_non_numeric rp "rsa_key_size" ∨
   missing_or_non_numeric rp "dvsni_port" →
     ∃ e, renew cert old_version w = (Raise e, w)) ∧
  (∀ r w', renew cert old_version w = (Ok r, w') →
     numeric_field rp "rsa_key_size" ∧ numeric_field rp "dvsni_port").
Proof.
  intros Hrp Hauth.
  assert (Hraise : ¬ (numeric_field rp "rsa_key_size" ∧ numeric_field rp "dvsni_port") →
     ∃ e, renew cert old_version w = (Raise e, w)).
  { intros Hbad.
    destruct (renew_bad_fields cert rp name Hrp Hauth Hbad) as (e & Hrun).
    eauto. }
  split.
  - intros Hbad. apply Hraise. intros [H1 H2].
    destruct Hbad as [Hbad|Hbad]; apply not_numeric_field in Hbad;
      [exact (Hbad H1)|exact (Hbad H2)].
  - intros r w' Hok.
    destruct (numeric_field_dec rp "rsa_key_size") as [H1|H1].
    + destruct (numeric_field_dec rp "dvsni_port") as [H2|H2]; [done|].
      destruct Hraise as (e & He); [|congruence].
      intros [_ H2']. exact (H2 H2').
    + destruct Hraise as (e & He); [|congruence].
      intros [H1' _]. exact (H1 H1').
Qed.

(** Every run of [renew], whatever its outcome: the outside calls it
    adds, where the names given to the issuance client come from, and
    what happens to the store. *)
Lemma renew_spec (cert : RenewableCert) (old_version : nat) (w w' : World)
    (r : result pyret) :
  renew cert old_version w = (r, w') →
  ∃ evs, trace w' = trace w ++ evs ∧
    (∀ our_client sans, EvObtainCertificate our_client sans ∈ evs →
       ∃ v,
         version_at (lineage_of w cert) old_version = Some v ∧
         get_sans_from_cert (cert_pem v) = Ok sans ∧
         match obtain_certificate our_client sans with
         | Ok issued =>
             match new_chain issued with
             | Some _ => ∃ n, r = Ok (PyInt n)
             | None => r = Ok PyFalse
             end
         | Raise e => r = Raise e
         end) ∧
    match r with
    | Ok (PyInt n) =>
        ∃ c k ch,
          lineages w' =
            <[lineage cert :=
                mkLineage (versions (lineage_of w cert) ++ [mkVersion c k ch])
                          (current_cert (lineage_of w cert))
                          (current_privkey (lineage_of w cert))
                          (current_chain (lineage_of w cert))]> (lineages w) ∧
          n = S (length (versions (lineage_of w cert))) ∧
          filter is_save_successor evs =
            [EvSaveSuccessor (lineage cert) old_version c k ch]
    | _ => lineages w' = lineages w ∧ filter is_save_successor evs = []
    end.
Proof.
  unfold renew. intros Hrun.
  destruct (items (configfile cert) !! "renewalparams") as [[[text|l]|rp]|];
    [destruct (negb (contains "authenticator" text))
    |destruct (negb (bool_decide ("authenticator" ∈ l)))| |];
    try (injection Hrun as <- <-; exists []; by finish_run).
  destruct (rp !! "authenticator") as [name|];
    [|injection Hrun as <- <-; exists []; by finish_run].
  revert Hrun. mrun.
  destruct (rp !! "rsa_key_size") as [[ks|]|];
    [|intros [= <- <-]; exists []; by finish_run..].
  destruct (py_int ks) as [size|];
    [|intros [= <- <-]; exists []; by finish_run].
  destruct (rp !! "dvsni_port") as [[ps|]|];
    [|intros [= <- <-]; exists []; by finish_run..].
  destruct (py_int ps) as [port|];
    [|intros [= <- <-]; exists []; by finish_run].
  destruct name as [name|];
    [|intros [= <- <-]; exists []; by finish_run].
  destruct (find_all !! name) as [ep|];
    [|intros [= <- <-]; exists []; by finish_run].
  unfold call_prepare, call_determine_account, call_obtain_certificate,
    read_cert_version, save_successor. mrun.
  set (config := mkNamespaceConfig rp size port).
  set (authenticator := init ep config).
  destruct (prepare authenticator) as [[]|e];
    [|intros [= <- <-]; eexists [_]; by finish_run].
  destruct (determine_account config) as [account|e];
    [|intros [= <- <-]; eexists [_; _]; by finish_run].
  unfold lineage_of at 1. simpl. fold (lineage_of w cert).
  destruct (version_at (lineage_of w cert) old_version) as [v|] eqn:Hv;
    [|intros [= <- <-]; eexists [_; _]; by finish_run].
  destruct (get_sans_from_cert (cert_pem v)) as [sans|e] eqn:Hsans;
    [|intros [= <- <-]; eexists [_; _]; by finish_run].
  destruct (obtain_certificate (mkClient config account authenticator) sans)
    as [issued|e] eqn:Hissued;
    [|intros [= <- <-]; eexists [_; _; _]; finish_run; [|done..];
      intros [= -> ->]; exists v; by rewrite Hissued].
  destruct (new_chain issued) as [chain|] eqn:Hchain.
  - intros [= <- <-]. eexists [_; _; _; _]. finish_run.
    + intros [= -> ->]. exists v. rewrite Hissued, Hchain. eauto.
    + exists (new_certr issued), (new_key issued), chain.
      unfold set_lineage, lineage_of. simpl.
      rewrite length_app. simpl. split_and!; [done|lia|done].
  - intros [= <- <-]. eexists [_; _; _]. finish_run; [|done..].
    intros [= -> ->]. exists v. by rewrite Hissued, Hchain.
Qed.

(** C1: whenever a run of [renew] reaches the issuance client, the
    names handed to [obtain_certificate] are exactly the subject
    alternative names read from the certificate artifact of the base
    version.  They do not depend on the configuration: any other handle
    on the same lineage, whatever its configuration holds, hands over
    the same names if it reaches issuance at all. *)
Theorem renew_names_from_base_certificate (cert : RenewableCert)
    (old_version : nat) (w w' : World) (r : result pyret)
    (evs : list Event) (our_client : Client) (sans : list string) :
  renew cert old_version w = (r, w') →
  trace w' = trace w ++ evs →
  EvObtainCertificate our_client sans ∈ evs →
  (∃ v, version_at (lineage_of w cert) old_version = Some v ∧
        get_sans_from_cert (cert_pem v) = Ok sans) ∧
  (∀ cert2 r2 w2 evs2 client2 sans2,
     lineage cert2 = lineage cert →
     renew cert2 old_version w = (r2, w2) →
     trace w2 = trace w ++ evs2 →
     EvObtainCertificate client2 sans2 ∈ evs2 →
     sans2 = sans).
Proof.
  intros Hrun Htrace Hin.
  destruct (renew_spec _ _ _ _ _ Hrun) as (evs0 & Htrace0 & Hnames & _).
  rewrite Htrace0 in Htrace. apply app_inv_head in Htrace as ->.
  destruct (Hnames _ _ Hin) as (v & Hv & Hsans & _).
  split; [by exists v|].
  intros cert2 r2 w2 evs2 client2 sans2 Hsame Hrun2 Htrace2 Hin2.
  destruct (renew_spec _ _ _ _ _ Hrun2) as (evs3 & Htrace3 & Hnames2 & _).
  rewrite Htrace3 in Htrace2. apply app_inv_head in Htrace2 as ->.
  destruct (Hnames2 _ _ Hin2) as (v2 & Hv2 & Hsans2 & _).
  unfold lineage_of in Hv, Hv2. rewrite Hsame in Hv2. congruence.
Qed.

(** C9: the effect of [renew] on the lineage store is all or nothing.
    When it returns a version number, the lineage has gained exactly one
    version: the latest version number has grown by one and is the
    number returned, earlier versions read as before, no "current"
    pointer has moved, no other lineage has changed, and
    [save_successor] was called exactly once, with the base version.
    In every other outcome the store is what it was and
    [save_successor] was not called.  In particular, once the issuance
    client has been called and has returned no chain, the outcome is
    ``False``. *)
Theorem renew_all_or_nothing (cert : RenewableCert) (old_version : nat)
    (w w' : World) (r : result pyret) :
  renew cert old_version w = (r, w') →
  ∃ evs, trace w' = trace w ++ evs ∧
    match r with
    | Ok (PyInt n) =>
        (∃ m, latest_common_version cert w = (Ok m, w) ∧
              latest_common_version cert w' = (Ok (S m), w') ∧ n = S m) ∧
        (∃ v, versions (lineage_of w' cert) = versions (lineage_of w cert) ++ [v]) ∧
        (∀ k v, version_at (lineage_of w cert) k = Some v →
                version_at (lineage_of w' cert) k = Some v) ∧
        current_cert (lineage_of w' cert) = current_cert (lineage_of w cert) ∧
        current_privkey (lineage_of w' cert) = current_privkey (lineage_of w cert) ∧
        current_chain (lineage_of w' cert) = current_chain (lineage_of w cert) ∧
        (∀ other, other ≠ lineage cert → lineages w' !! other = lineages w !! other) ∧
        (∃ c k ch, filter is_save_successor evs =
                     [EvSaveSuccessor (lineage cert) old_version c k ch])
    | _ => lineages w' = lineages w ∧ filter is_save_successor evs = []
    end ∧
    (∀ our_client sans issued,
       EvObtainCertificate our_client sans ∈ evs →
       obtain_certificate our_client sans = Ok issued →
       new_chain issued = None →
       r = Ok PyFalse ∧ lineages w' = lineages w).
Proof.
  intros Hrun.
  destruct (renew_spec _ _ _ _ _ Hrun) as (evs & Htrace & Hnames & Hout).
  exists evs. split; [done|]. split.
  - destruct r as [[|n]|e]; [done| |done].
    destruct Hout as (c & k & ch & Hl & Hn & Hsave).
    assert (Hl' : lineage_of w' cert =
              mkLineage (versions (lineage_of w cert) ++ [mkVersion c k ch])
                        (current_cert (lineage_of w cert))
                        (current_privkey (lineage_of w cert))
                        (current_chain (lineage_of w cert))).
    { unfold lineage_of at 1. by rewrite Hl, lookup_insert_eq. }
    split_and!.
    + exists (length (versions (lineage_of w cert))).
      unfold latest_common_version. rewrite Hl'. simpl.
      rewrite length_app. simpl.
      split_and!; [done| |done]. do 2 f_equal. lia.
    + rewrite Hl'. by eexists.
    + intros [|i] v; [done|]. rewrite Hl'. simpl.
      intros Hv. by apply lookup_app_l_Some.
    + by rewrite Hl'.
    + by rewrite Hl'.
    + by rewrite Hl'.
    + intros other Hne. by rewrite Hl, lookup_insert_ne.
    + by exists c, k, ch.
  - intros our_client sans issued Hin Hissued Hchain.
    destruct (Hnames _ _ Hin) as (v & _ & _ & Hr).
    rewrite Hissued, Hchain in Hr. subst r. by destruct Hout.
Qed.

(** *** More on [renew] *)

(** Every run of [renew] is one of the runs listed by [renew_run]. *)
Lemma renew_run_complete (cert : RenewableCert) (old_version : nat)
    (w w' : World) (r : result pyret) :
  renew cert old_version w = (r, w') → renew_run cert old_version w r w'.
Proof.
  unfold renew. intros Hrun.
  destruct (items (configfile cert) !! "renewalparams") as [[[text|l]|rp]|] eqn:Hrp;
    [destruct (negb (contains "authenticator" text))
    |destruct (negb (bool_decide ("authenticator" ∈ l)))| |];
    try (injection Hrun as <- <-;
         (apply run_not_renewed || (apply run_bad_configuration; by right; left))).
  destruct (rp !! "authenticator") as [name|] eqn:Hname;
    [|injection Hrun as <- <-; apply run_not_renewed].
  revert Hrun. mrun.
  destruct (rp !! "rsa_key_size") as [[ks|]|] eqn:Hks;
    [|intros [= <- <-]; apply run_bad_configuration; by right; right
     |intros [= <- <-]; apply run_bad_configuration; by left].
  destruct (py_int ks) as [size|] eqn:Hsize;
    [|intros [= <- <-]; apply run_bad_configuration; by right; left].
  destruct (rp !! "dvsni_port") as [[ps|]|] eqn:Hps;
    [|intros [= <- <-]; apply run_bad_configuration; by right; right
     |intros [= <- <-]; apply run_bad_configuration; by left].
  destruct (py_int ps) as [port|] eqn:Hport;
    [|intros [= <- <-]; apply run_bad_configuration; by right; left].
  destruct name as [name|];
    [|intros [= <- <-]; apply run_bad_configuration; by right; right].
  destruct (find_all !! name) as [ep|] eqn:Hep;
    [|intros [= <- <-]; apply run_not_renewed].
  intros Hrun. eapply run_attempt; [done..|]. revert Hrun.
  unfold call_prepare, call_determine_account, call_obtain_certificate,
    read_cert_version, save_successor. mrun.
  set (config := mkNamespaceConfig rp size port).
  set (authenticator := init ep config).
  destruct (prepare authenticator) as [[]|e] eqn:Hprepare;
    [|intros [= <- <-]; by apply attempt_prepare_raises].
  destruct (determine_account config) as [account|e] eqn:Haccount;
    [|intros [= <- <-]; rewrite <- app_assoc; by apply attempt_account_raises].
  unfold lineage_of at 1. simpl. fold (lineage_of w cert).
  destruct (version_at (lineage_of w cert) old_version) as [v|] eqn:Hv;
    [|intros [= <- <-]; rewrite <- app_assoc; by eapply attempt_version_absent].
  destruct (get_sans_from_cert (cert_pem v)) as [sans|e] eqn:Hsans;
    [|intros [= <- <-]; rewrite <- app_assoc; by eapply attempt_sans_raises].
  destruct (obtain_certificate (mkClient config account authenticator) sans)
    as [issued|e] eqn:Hissued;
    [|intros [= <- <-]; rewrite <- !app_assoc; by eapply attempt_issuance_raises].
  destruct (new_chain issued) as [chain|] eqn:Hchain.
  - intros [= <- <-]. unfold set_lineage, lineage_of. simpl.
    rewrite length_app, <- !app_assoc. simpl.
    replace (length (versions (default empty_lineage (lineages w !! lineage cert))) + 1)
      with (S (length (versions (default empty_lineage (lineages w !! lineage cert)))))
      by lia.
    by eapply attempt_saved.
  - intros [= <- <-]. rewrite <- !app_assoc. by eapply attempt_no_chain.
Qed.

Lemma lineage_of_insert (cert : RenewableCert) (l : Lineage)
    (m : gmap string Lineage) (t : list Event) :
  lineage_of (mkWorld (<[lineage cert := l]> m) t) cert = l.
Proof. unfold lineage_of. simpl. by rewrite lookup_insert_eq. Qed.

Lemma new_events_nil (l evs : list Event) : l = l ++ evs → evs = [].
Proof.
  intros H. rewrite <- (app_nil_r l) in H at 1. by apply app_inv_head in H.
Qed.

(** X1: the outside calls of one run of [renew] come in a fixed order,
    each at most once: [prepare()], then [determine_account], then
    [obtain_certificate], then [save_successor]; a run may stop after any
    of them, and it has got as far as [save_successor] exactly when it
    returns a version number. *)
Theorem renew_call_order (cert : RenewableCert) (old_version : nat)
    (w w' : World) (r : result pyret) (evs : list Event) :
  renew cert old_version w = (r, w') →
  trace w' = trace w ++ evs →
  call_order evs = true ∧
  ((∃ n, r = Ok (PyInt n)) ↔ length evs = 4).
Proof.
  intros Hrun Htrace. apply renew_run_complete in Hrun.
  inversion Hrun as [ | | ? ? ? ? ? ? ? ? ? ? ? ? ? ? ? ? Hattempt]; subst;
    [| |inversion Hattempt; subst; simpl in Htrace];
    first [apply app_inv_head in Htrace | apply new_events_nil in Htrace];
    subst; (split; [done|]); split; (by intros [? ?] || done || eauto).
Qed.

(** X2: when the base version is not recorded in the lineage, [renew]
    never calls the issuance client and never creates a version: the store
    is left as it was, and once [prepare()] has been called the run ends
    with an exception. *)
Theorem renew_absent_base_version (cert : RenewableCert) (old_version : nat)
    (w w' : World) (r : result pyret) (evs : list Event) :
  renew cert old_version w = (r, w') →
  trace w' = trace w ++ evs →
  version_at (lineage_of w cert) old_version = None →
  lineages w' = lineages w ∧
  (∀ n, r ≠ Ok (PyInt n)) ∧
  (∀ our_client sans, EvObtainCertificate our_client sans ∉ evs) ∧
  (∀ a, EvPrepare a ∈ evs → ∃ e, r = Raise e).
Proof.
  intros Hrun Htrace Habsent. apply renew_run_complete in Hrun.
  inversion Hrun as [ | | ? ? ? ? ? ? ? ? ? ? ? ? ? ? ? ? Hattempt]; subst;
    [| |inversion Hattempt; subst; simpl in Htrace; try congruence];
    first [apply app_inv_head in Htrace | apply new_events_nil in Htrace];
    subst; split_and!; try done;
    try (intros ? ? Hin;
         repeat (apply elem_of_cons in Hin as [Hin|Hin]; [discriminate|]);
         by apply elem_of_nil in Hin);
    try (intros ? Hin; by apply elem_of_nil in Hin);
    eauto.
Qed.


(** X4: the issuance client is only ever called on behalf of the
    authenticator the lineage names.  Whenever [obtain_certificate] is
    called, the client was built from the renewalparams block with its two
    numeric fields coerced by [int], with the plugin the registry holds
    under the recorded authenticator name, after [prepare()] of that plugin
    and [determine_account] have both succeeded. *)
Theorem renew_uses_named_authenticator (cert : RenewableCert) (old_version : nat)
    (w w' : World) (r : result pyret) (evs : list Event)
    (our_client : Client) (sans : list string) :
  renew cert old_version w = (r, w') →
  trace w' = trace w ++ evs →
  EvObtainCertificate our_client sans ∈ evs →
  ∃ rp name entry_point ks ps,
    items (configfile cert) !! "renewalparams" = Some (Section_ rp) ∧
    rp !! "authenticator" = Some (Text name) ∧
    find_all !! name = Some entry_point ∧
    namespace (client_config our_client) = rp ∧
    rp !! "rsa_key_size" = Some (Text ks) ∧
    py_int ks = Some (rsa_key_size (client_config our_client)) ∧
    rp !! "dvsni_port" = Some (Text ps) ∧
    py_int ps = Some (dvsni_port (client_config our_client)) ∧
    client_authenticator our_client = init entry_point (client_config our_client) ∧
    prepare (client_authenticator our_client) = Ok tt ∧
    determine_account (client_config our_client) = Ok (client_account our_client).
Proof.
  intros Hrun Htrace Hin. apply renew_run_complete in Hrun.
  inversion Hrun as [ | | rp name ks ps size port ep ? ? ? ? ? ? ? ? ? Hattempt]; subst;
    [| |inversion Hattempt; subst; simpl in Htrace];
    first [apply app_inv_head in Htrace | apply new_events_nil in Htrace];
    subst;
    repeat (apply elem_of_cons in Hin as [Hin|Hin]; [try discriminate|]);
    try (by apply elem_of_nil in Hin);
    injection Hin as -> ->; exists rp, name, ep, ks, ps; by split_and!.
Qed.

(** *** The batch driver *)

Lemma for_each_app {A} (l1 l2 : list A) (body : A → M unit) (w : World) :
  for_each (l1 ++ l2) body w =
  match for_each l1 body w with
  | (Ok _, w1) => for_each l2 body w1
  | (Raise e, w1) => (Raise e, w1)
  end.
Proof.
  revert w. induction l1 as [|i l1 IH]; intros w; [done|].
  simpl. mrun. destruct (body i w) as [[[]|e] w1]; [apply IH|done].
Qed.

(** An exception in the body ends the loop: the remaining entries are
    not looked at. *)
Lemma for_each_abort {A} (pre rest : list A) (i : A) (body : A → M unit)
    (w0 w w' : World) (e : exn) :
  for_each pre body w0 = (Ok tt, w) →
  body i w = (Raise e, w') →
  for_each (pre ++ i :: rest) body w0 = (Raise e, w').
Proof.
  intros Hpre Hi. rewrite for_each_app, Hpre. simpl. mrun. by rewrite Hi.
Qed.

(** What the renewal step does with the outcome of [renew]: the base
    version is the latest recorded one, the returned value is dropped and
    the notification is sent whenever [renew] returns. *)
Lemma autorenew_due (cert : RenewableCert) (w w1 : World) (r : result pyret) :
  should_autorenew cert (lineage_of w cert) = true →
  renew cert (length (versions (lineage_of w cert))) w = (r, w1) →
  autorenew cert w =
  match r with
  | Ok _ => (Ok tt, notified "Autorenewed a cert!!!" w1)
  | Raise e => (Raise e, w1)
  end.
Proof.
  intros Hdue Hrun. unfold autorenew, latest_common_version, notify.
  rewrite Hdue. mrun. rewrite Hrun. by destruct r.
Qed.

Lemma autorenew_not_due (cert : RenewableCert) (w : World) :
  should_autorenew cert (lineage_of w cert) = false →
  autorenew cert w = (Ok tt, w).
Proof. intros Hdue. unfold autorenew. by rewrite Hdue. Qed.

Lemma autodeploy_due (cert : RenewableCert) (w : World) :
  should_autodeploy cert (lineage_of w cert) = true →
  autodeploy cert w =
  (Ok tt,
   mkWorld (<[lineage cert :=
                mkLineage (versions (lineage_of w cert))
                          (length (versions (lineage_of w cert)))
                          (length (versions (lineage_of w cert)))
                          (length (versions (lineage_of w cert)))]> (lineages w))
           (trace w ++ [EvUpdateAllLinks (lineage cert)
                          (length (versions (lineage_of w cert)));
                        EvNotify "Autodeployed a cert!!!" "root" "It worked!"])).
Proof.
  intros Hdue. unfold autodeploy, latest_common_version, update_all_links_to,
    notify, set_lineage.
  rewrite Hdue. mrun. by rewrite <- app_assoc.
Qed.

Lemma autodeploy_not_due (cert : RenewableCert) (w : World) :
  should_autodeploy cert (lineage_of w cert) = false →
  autodeploy cert w = (Ok tt, w).
Proof. intros Hdue. unfold autodeploy. by rewrite Hdue. Qed.

(** What [rc_config_of] returns, when it returns. *)
Lemma rc_config_of_Ok (cli_config : RenewerConfiguration) (i : string)
    (rc_config : ConfigObj) :
  rc_config_of cli_config i = Ok rc_config →
  ∃ renewer lineage_file,
    read_file (renewer_config_file cli_config) = Ok renewer ∧
    read_file (path_join (renewal_configs_dir cli_config) i) = Ok lineage_file ∧
    rc_config =
      set_filename
        (merge (mkConfigObj renewer (Some (renewer_config_file cli_config)))
               (mkConfigObj lineage_file
                  (Some (path_join (renewal_configs_dir cli_config) i))))
        (path_join (renewal_configs_dir cli_config) i).
Proof.
  unfold rc_config_of, ConfigObj_load.
  destruct (read_file (renewer_config_file cli_config)) as [renewer|]; [|done].
  destruct (read_file (path_join _ i)) as [lineage_file|]; [|done].
  intros [= <-]. by exists renewer, lineage_file.
Qed.

(** The loop body on a [.conf] entry whose lineage can be constructed. *)
Lemma main_body_lineage (cli_config : RenewerConfiguration) (i : string)
    (rc_config : ConfigObj) (cert : RenewableCert) (w : World) :
  endswith i ".conf" = true →
  rc_config_of cli_config i = Ok rc_config →
  RenewableCert_init rc_config cli_config = Ok cert →
  main_body cli_config i w =
  (autorenew cert ;; autodeploy cert) (printed i w).
Proof.
  intros Hconf Hrc Hcert. unfold main_body. mrun.
  by rewrite Hconf, Hrc, Hcert.
Qed.

(** A batch run that has come to an entry of the directory goes on with
    the loop body on that entry and then the entries after it. *)
Lemma main_at_entry (config : option ConfigObj) (args : list string)
    (cli_config : RenewerConfiguration) (renewer : gmap string entry)
    (pre rest : list string) (i : string) (w0 w : World) :
  parse_args args = Ok cli_config →
  read_file (renewer_config_file cli_config) = Ok renewer →
  listdir (renewal_configs_dir cli_config) = Ok (pre ++ i :: rest) →
  for_each pre (main_body cli_config) w0 = (Ok tt, w) →
  main config args w0 =
  (main_body cli_config i ;; for_each rest (main_body cli_config)) w.
Proof.
  intros Hargs Hrenewer Hdir Hpre. unfold main, renewer_defaults, ConfigObj_load.
  mrun. rewrite Hargs. simpl. rewrite Hrenewer. simpl. rewrite Hdir. simpl.
  by rewrite for_each_app, Hpre.
Qed.

(** An exception raised by [renew] leaves [main] as it is, at the entry
    being processed. *)
Lemma main_renew_raises (config : option ConfigObj) (args : list string)
    (cli_config : RenewerConfiguration)
    (pre rest : list string) (i : string) (w0 w w1 : World)
    (rc_config : ConfigObj) (cert : RenewableCert) (e : exn) :
  parse_args args = Ok cli_config →
  listdir (renewal_configs_dir cli_config) = Ok (pre ++ i :: rest) →
  for_each pre (main_body cli_config) w0 = (Ok tt, w) →
  endswith i ".conf" = true →
  rc_config_of cli_config i = Ok rc_config →
  RenewableCert_init rc_config cli_config = Ok cert →
  should_autorenew cert (lineage_of w cert) = true →
  renew cert (length (versions (lineage_of w cert))) (printed i w) = (Raise e, w1) →
  main config args w0 = (Raise e, w1).
Proof.
  intros Hargs Hdir Hpre Hconf Hrc Hcert Hdue Hrun.
  destruct (rc_config_of_Ok _ _ _ Hrc) as (renewer & lineage_file & Hrenewer & _).
  rewrite (main_at_entry config args cli_config renewer pre rest i w0 w) by done.
  unfold mbind at 1, M_bind at 1.
  rewrite (main_body_lineage _ _ rc_config cert) by done.
  unfold mbind, M_bind.
  by rewrite (autorenew_due cert (printed i w) w1 (Raise e)).
Qed.

(** C2 (amended): for a lineage that is due for renewal and whose
    renewalparams block has an authenticator entry and holds non-numeric
    text in a numeric field, the attempt is not skipped: [renew] raises an
    exception before any outside call or change of the store, and [main]
    does not catch it: the run ends with that exception at this lineage,
    right after its "Processing" line, and the remaining entries of the
    directory are not processed. *)
Theorem main_aborts_on_non_numeric_field (config : option ConfigObj)
    (args : list string) (cli_config : RenewerConfiguration)
    (pre rest : list string) (i : string)
    (w0 w : World) (rc_config : ConfigObj) (cert : RenewableCert)
    (rp : gmap string value) (name : value) :
  parse_args args = Ok cli_config →
  listdir (renewal_configs_dir cli_config) = Ok (pre ++ i :: rest) →
  for_each pre (main_body cli_config) w0 = (Ok tt, w) →
  endswith i ".conf" = true →
  rc_config_of cli_config i = Ok rc_config →
  RenewableCert_init rc_config cli_config = Ok cert →
  should_autorenew cert (lineage_of w cert) = true →
  items (configfile cert) !! "renewalparams" = Some (Section_ rp) →
  rp !! "authenticator" = Some name →
  non_numeric_field rp "rsa_key_size" ∨ non_numeric_field rp "dvsni_port" →
  ∃ e,
    (∀ old_version w1, renew cert old_version w1 = (Raise e, w1)) ∧
    main config args w0 = (Raise e, printed i w).
Proof.
  intros Hargs Hdir Hpre Hconf Hrc Hcert Hdue Hrp Hauth Hbad.
  destruct (renew_bad_fields cert rp name Hrp Hauth) as (e & Hrun).
  { intros [H1 H2].
    destruct Hbad as [Hbad|Hbad];
      (eapply not_numeric_field; [right; left; exact Hbad|done]). }
  exists e. split; [done|].
  by eapply main_renew_raises.
Qed.

(** The run of [renew] up to [prepare()]. *)
Lemma renew_prepare_raises (cert : RenewableCert) (rp : gmap string value)
    (name ks ps : string) (size port : Z) (ep : PluginEntryPoint) (e : exn)
    (old_version : nat) (w : World) :
  items (configfile cert) !! "renewalparams" = Some (Section_ rp) →
  rp !! "authenticator" = Some (Text name) →
  rp !! "rsa_key_size" = Some (Text ks) → py_int ks = Some size →
  rp !! "dvsni_port" = Some (Text ps) → py_int ps = Some port →
  find_all !! name = Some ep →
  prepare (init ep (mkNamespaceConfig rp size port)) = Raise e →
  renew cert old_version w =
  (Raise e,
   mkWorld (lineages w)
     (trace w ++ [EvPrepare (auth_name (init ep (mkNamespaceConfig rp size port)))])).
Proof.
  intros Hrp Hauth Hks Hsize Hps Hport Hreg Hprep.
  unfold renew. rewrite Hrp, Hauth.
  rewrite (coerce_ok rp ks size ps port) by done.
  rewrite Hreg. unfold call_prepare. mrun. by rewrite Hprep.
Qed.

(** C3 (amended): when [prepare()] of the authenticator fails, that is
    raises, [renew] returns nothing: the exception leaves [renew] after
    the call of [prepare()], with the store unchanged, so no successor
    version is created.  For a lineage due for renewal [main] does not
    catch it: the run ends with that exception at this lineage and the
    remaining entries of the directory are not processed. *)
Theorem main_aborts_on_prepare_failure (config : option ConfigObj)
    (args : list string) (cli_config : RenewerConfiguration)
    (pre rest : list string) (i : string)
    (w0 w : World) (rc_config : ConfigObj) (cert : RenewableCert)
    (rp : gmap string value)
    (name ks ps : string) (size port : Z) (ep : PluginEntryPoint) (e : exn) :
  parse_args args = Ok cli_config →
  listdir (renewal_configs_dir cli_config) = Ok (pre ++ i :: rest) →
  for_each pre (main_body cli_config) w0 = (Ok tt, w) →
  endswith i ".conf" = true →
  rc_config_of cli_config i = Ok rc_config →
  RenewableCert_init rc_config cli_config = Ok cert →
  should_autorenew cert (lineage_of w cert) = true →
  items (configfile cert) !! "renewalparams" = Some (Section_ rp) →
  rp !! "authenticator" = Some (Text name) →
  rp !! "rsa_key_size" = Some (Text ks) → py_int ks = Some size →
  rp !! "dvsni_port" = Some (Text ps) → py_int ps = Some port →
  find_all !! name = Some ep →
  prepare (init ep (mkNamespaceConfig rp size port)) = Raise e →
  (∀ old_version w1, ∃ w2,
     renew cert old_version w1 = (Raise e, w2) ∧ lineages w2 = lineages w1 ∧
     trace w2 =
       trace w1 ++ [EvPrepare (auth_name (init ep (mkNamespaceConfig rp size port)))]) ∧
  ∃ w', main config args w0 = (Raise e, w') ∧ lineages w' = lineages w ∧
        trace w' =
          trace w ++ [EvPrint ("Processing " +:+ i);
                      EvPrepare (auth_name (init ep (mkNamespaceConfig rp size port)))].
Proof.
  intros Hargs Hdir Hpre Hconf Hrc Hcert Hdue Hrp Hauth Hks Hsize Hps Hport Hreg Hprep.
  split.
  - intros old_version w1. eexists. split_and!;
      [by eapply renew_prepare_raises|done|done].
  - eexists. split_and!.
    + eapply main_renew_raises; [done..|]. by eapply renew_prepare_raises.
    + done.
    + simpl. by rewrite <- app_assoc.
Qed.

Lemma set_filename_items (c : ConfigObj) (f : string) :
  items (set_filename c f) = items c.
Proof. done. Qed.

(** What the constructor returns, when it returns. *)
Lemma RenewableCert_init_Ok (rc_config : ConfigObj)
    (cli_config : RenewerConfiguration) (cert : RenewableCert) :
  RenewableCert_init rc_config cli_config = Ok cert →
  configfile cert = rc_config ∧
  configuration cert = merge (config_with_defaults None) rc_config ∧
  lineage cert = default "" (filename rc_config).
Proof.
  unfold RenewableCert_init. destruct (forallb _ _); [|done].
  by intros [= <-].
Qed.

(** What [merge] does at one key, in the words of the spec. *)
Lemma merge_lookup (self indict : ConfigObj) (k : string) :
  items (merge self indict) !! k =
  later_overrides (items self !! k) (items indict !! k).
Proof.
  unfold merge, later_overrides. simpl. rewrite lookup_union_with.
  destruct (items self !! k) as [[v1|m1]|], (items indict !! k) as [[v2|m2]|];
    done.
Qed.

(** C5: the configuration in effect for a lineage that [main] processes
    is the ordered merge of three layers: the process-wide defaults, then
    the renewer-wide configuration file, then the configuration file of
    the lineage.  At every key a later layer that sets it overrides the
    earlier ones and a later layer that leaves it unset lets the earlier
    ones through; so a key set only in the defaults is visible, a scalar
    set in the file of the lineage is the value in effect, and so is a
    scalar set in the renewer-wide file where the file of the lineage
    leaves the key unset. *)
Theorem lineage_configuration_layers (cli_config : RenewerConfiguration)
    (i : string) (w : World) (renewer lineage_file : gmap string entry)
    (rc_config : ConfigObj) (cert : RenewableCert) :
  endswith i ".conf" = true →
  read_file (renewer_config_file cli_config) = Ok renewer →
  read_file (path_join (renewal_configs_dir cli_config) i) = Ok lineage_file →
  rc_config_of cli_config i = Ok rc_config →
  RenewableCert_init rc_config cli_config = Ok cert →
  main_body cli_config i w =
    (autorenew cert ;; autodeploy cert) (printed i w) ∧
  (∀ k, items (configuration cert) !! k =
        later_overrides (items (config_with_defaults None) !! k)
          (later_overrides (renewer !! k) (lineage_file !! k))) ∧
  (∀ k, lineage_file !! k = None → renewer !! k = None →
        items (configuration cert) !! k = items (config_with_defaults None) !! k) ∧
  (∀ k v, lineage_file !! k = Some (Scalar v) →
          items (configuration cert) !! k = Some (Scalar v)) ∧
  (∀ k v, lineage_file !! k = None → renewer !! k = Some (Scalar v) →
          items (configuration cert) !! k = Some (Scalar v)).
Proof.
  intros Hconf Hrenewer Hfile Hrc Hcert.
  assert (Hlayers : ∀ k, items (configuration cert) !! k =
            later_overrides (items (config_with_defaults None) !! k)
              (later_overrides (renewer !! k) (lineage_file !! k))).
  { intros k.
    destruct (RenewableCert_init_Ok _ _ _ Hcert) as (_ & -> & _).
    destruct (rc_config_of_Ok _ _ _ Hrc) as (renewer' & file' & Hr' & Hf' & ->).
    rewrite Hrenewer in Hr'. rewrite Hfile in Hf'.
    injection Hr' as <-. injection Hf' as <-.
    by rewrite merge_lookup, set_filename_items, merge_lookup. }
  split_and!.
  - by eapply main_body_lineage.
  - exact Hlayers.
  - intros k Hfile_k Hrenewer_k. by rewrite Hlayers, Hfile_k, Hrenewer_k.
  - intros k v Hfile_k. by rewrite Hlayers, Hfile_k.
  - intros k v Hfile_k Hrenewer_k. by rewrite Hlayers, Hfile_k, Hrenewer_k.
Qed.

(** Deployment leaves the versions of every lineage as they are. *)
Lemma autodeploy_versions (cert : RenewableCert) (w w' : World) (r : result unit) :
  autodeploy cert w = (r, w') →
  ∀ c, versions (lineage_of w' c) = versions (lineage_of w c).
Proof.
  intros Hrun c.
  destruct (should_autodeploy cert (lineage_of w cert)) eqn:Hdue.
  - rewrite autodeploy_due in Hrun by done. injection Hrun as _ <-.
    unfold lineage_of at 1. simpl.
    destruct (decide (lineage cert = lineage c)) as [Heq|Hne].
    + rewrite Heq, lookup_insert_eq. simpl. unfold lineage_of. by rewrite Heq.
    + by rewrite lookup_insert_ne.
  - rewrite autodeploy_not_due in Hrun by done. by injection Hrun as _ <-.
Qed.

(** What the deployment step does when the lineage is due. *)
Lemma autodeploy_deployed (cert : RenewableCert) (w : World) :
  should_autodeploy cert (lineage_of w cert) = true →
  autodeploy cert w = (Ok tt, deployed cert w).
Proof. apply autodeploy_due. Qed.

(** The deployment step, due or not. *)
Lemma autodeploy_run (cert : RenewableCert) (w : World) :
  autodeploy cert w =
  (Ok tt, if should_autodeploy cert (lineage_of w cert)
          then deployed cert w else w).
Proof.
  destruct (should_autodeploy cert (lineage_of w cert)) eqn:Hdue.
  - by apply autodeploy_deployed.
  - by apply autodeploy_not_due.
Qed.

(** C6: in a batch run, at every lineage: when it is due for renewal,
    [renew] is run with the latest recorded version as its base, wherever
    the "current" pointers stand, and the deployment step follows on the
    world the renewal leaves; when the deployment step finds the lineage
    due, all three "current" pointers are set to the latest recorded
    version and no version of any lineage is created or deleted; so a
    version created by the renewal step is the one the deployment step of
    the same pass deploys. *)
Theorem renew_latest_then_deploy_latest (config : option ConfigObj)
    (args : list string) (cli_config : RenewerConfiguration)
    (pre rest : list string) (i : string)
    (w0 w : World) (rc_config : ConfigObj) (cert : RenewableCert) :
  parse_args args = Ok cli_config →
  listdir (renewal_configs_dir cli_config) = Ok (pre ++ i :: rest) →
  for_each pre (main_body cli_config) w0 = (Ok tt, w) →
  endswith i ".conf" = true →
  rc_config_of cli_config i = Ok rc_config →
  RenewableCert_init rc_config cli_config = Ok cert →
  (should_autorenew cert (lineage_of w cert) = true →
   ∀ m r w1,
     latest_common_version cert w = (Ok m, w) →
     renew cert m (printed i w) = (r, w1) →
     main config args w0 =
     match r with
     | Raise e => (Raise e, w1)
     | Ok _ =>
         for_each rest (main_body cli_config)
           (if should_autodeploy cert (lineage_of w1 cert)
            then deployed cert (notified "Autorenewed a cert!!!" w1)
            else notified "Autorenewed a cert!!!" w1)
     end) ∧
  (should_autorenew cert (lineage_of w cert) = false →
   main config args w0 =
   for_each rest (main_body cli_config)
     (if should_autodeploy cert (lineage_of w cert)
      then deployed cert (printed i w) else printed i w)) ∧
  (∀ w1 m,
     latest_common_version cert w1 = (Ok m, w1) →
     current_cert (lineage_of (deployed cert w1) cert) = m ∧
     current_privkey (lineage_of (deployed cert w1) cert) = m ∧
     current_chain (lineage_of (deployed cert w1) cert) = m ∧
     latest_common_version cert (deployed cert w1) = (Ok m, deployed cert w1) ∧
     ∀ c, versions (lineage_of (deployed cert w1) c) = versions (lineage_of w1 c)) ∧
  (∀ m n w1,
     should_autorenew cert (lineage_of w cert) = true →
     latest_common_version cert w = (Ok m, w) →
     renew cert m (printed i w) = (Ok (PyInt n), w1) →
     should_autodeploy cert (lineage_of w1 cert) = true →
     ∃ w2,
       main config args w0 = for_each rest (main_body cli_config) w2 ∧
       n = S m ∧
       latest_common_version cert w2 = (Ok n, w2) ∧
       current_cert (lineage_of w2 cert) = n ∧
       current_privkey (lineage_of w2 cert) = n ∧
       current_chain (lineage_of w2 cert) = n).
Proof.
  intros Hargs Hdir Hpre Hconf Hrc Hcert.
  destruct (rc_config_of_Ok _ _ _ Hrc) as (renewer & lineage_file & Hrenewer & _).
  assert (Hmain : main config args w0 =
            match autorenew cert (printed i w) with
            | (Ok _, w1) =>
                for_each rest (main_body cli_config)
                  (if should_autodeploy cert (lineage_of w1 cert)
                   then deployed cert w1 else w1)
            | (Raise e, w1) => (Raise e, w1)
            end).
  { rewrite (main_at_entry config args cli_config renewer pre rest i w0 w) by done.
    unfold mbind at 1, M_bind at 1.
    rewrite (main_body_lineage _ _ rc_config cert) by done.
    unfold mbind, M_bind.
    destruct (autorenew cert (printed i w)) as [[[]|e] w1]; [|done].
    by rewrite autodeploy_run. }
  assert (Hdeployed : ∀ w1 m,
     latest_common_version cert w1 = (Ok m, w1) →
     current_cert (lineage_of (deployed cert w1) cert) = m ∧
     current_privkey (lineage_of (deployed cert w1) cert) = m ∧
     current_chain (lineage_of (deployed cert w1) cert) = m ∧
     latest_common_version cert (deployed cert w1) = (Ok m, deployed cert w1) ∧
     ∀ c, versions (lineage_of (deployed cert w1) c) = versions (lineage_of w1 c)).
  { intros w1 m [= <-]. unfold deployed, latest_common_version.
    rewrite !lineage_of_insert. simpl. split_and!; [done..|].
    intros c. unfold lineage_of at 1. simpl.
    destruct (decide (lineage cert = lineage c)) as [Heq|Hne].
    - rewrite Heq, lookup_insert_eq. simpl. unfold lineage_of. by rewrite Heq.
    - by rewrite lookup_insert_ne. }
  split_and!.
  - intros Hdue m r w1 [= <-] Hrun. rewrite Hmain.
    rewrite (autorenew_due cert (printed i w) w1 r) by done.
    by destruct r.
  - intros Hdue. rewrite Hmain. by rewrite autorenew_not_due.
  - exact Hdeployed.
  - intros m n w1 Hdue [= <-] Hrun Hdeploy. rewrite Hmain.
    rewrite (autorenew_due cert (printed i w) w1 (Ok (PyInt n))) by done.
    change (lineage_of (notified "Autorenewed a cert!!!" w1) cert)
      with (lineage_of w1 cert).
    rewrite Hdeploy. eexists. split; [done|].
    destruct (renew_spec _ _ _ _ _ Hrun)
      as (evs & _ & _ & (c & k & ch & Hl1 & -> & _)).
    assert (Hlen : latest_common_version cert (notified "Autorenewed a cert!!!" w1) =
                   (Ok (S (length (versions (lineage_of w cert)))),
                    notified "Autorenewed a cert!!!" w1)).
    { unfold latest_common_version. do 2 f_equal.
      change (lineage_of (notified "Autorenewed a cert!!!" w1) cert)
        with (lineage_of w1 cert).
      unfold lineage_of at 1. rewrite Hl1.
      change (lineages (printed i w)) with (lineages w).
      rewrite lookup_insert_eq. simpl.
      change (lineage_of (printed i w) cert) with (lineage_of w cert).
      rewrite length_app. simpl. lia. }
    destruct (Hdeployed _ _ Hlen) as (H1 & H2 & H3 & H4 & _).
    by split_and!.
Qed.

(** *** More on the batch driver *)

Lemma store_grows_refl (allowed : string → Prop) (w : World) :
  store_grows allowed w w.
Proof. split_and!; [done|done|]. exists []. by rewrite app_nil_r. Qed.

Lemma store_grows_trans (allowed : string → Prop) (w1 w2 w3 : World) :
  store_grows allowed w1 w2 → store_grows allowed w2 w3 →
  store_grows allowed w1 w3.
Proof.
  intros (Hf1 & Hp1 & evs1 & Ht1) (Hf2 & Hp2 & evs2 & Ht2). split_and!.
  - intros k Hk. by rewrite Hf2, Hf1.
  - intros k. etrans; [apply Hp1|apply Hp2].
  - exists (evs1 ++ evs2). by rewrite Ht2, Ht1, <- app_assoc.
Qed.

Lemma store_grows_weaken (allowed allowed' : string → Prop) (w w' : World) :
  (∀ k, allowed k → allowed' k) →
  store_grows allowed w w' → store_grows allowed' w w'.
Proof.
  intros Hsub (Hf & Hp & Ht). split_and!; [|done|done].
  intros k Hk. apply Hf. intros Hk'. by apply Hk, Hsub.
Qed.

(** A step that leaves the lineages alone and adds to the trace. *)
Lemma store_grows_events (allowed : string → Prop) (w : World) (evs : list Event) :
  store_grows allowed w (mkWorld (lineages w) (trace w ++ evs)).
Proof. split_and!; [done|done|by exists evs]. Qed.

Lemma renew_store_grows (cert : RenewableCert) (old_version : nat)
    (w w' : World) (r : result pyret) :
  renew cert old_version w = (r, w') →
  store_grows (λ k, k = lineage cert) w w'.
Proof.
  intros Hrun.
  destruct (renew_spec _ _ _ _ _ Hrun) as (evs & Htrace & _ & Hout).
  assert (Hsame : lineages w' = lineages w → store_grows (λ k, k = lineage cert) w w').
  { intros Hl. split_and!; [by rewrite Hl|by rewrite Hl|by exists evs]. }
  destruct r as [[|n]|e]; [by apply Hsame, Hout| |by apply Hsame, Hout].
  destruct Hout as (c & k & ch & Hl & _ & _).
  split_and!; [| |by exists evs].
  - intros key Hkey. rewrite Hl. by rewrite lookup_insert_ne.
  - intros key. rewrite Hl.
    destruct (decide (lineage cert = key)) as [<-|Hne].
    + rewrite lookup_insert_eq. simpl. by apply prefix_app_r.
    + by rewrite lookup_insert_ne.
Qed.

Lemma autorenew_store_grows (cert : RenewableCert) (w w' : World) (r : result unit) :
  autorenew cert w = (r, w') → store_grows (λ k, k = lineage cert) w w'.
Proof.
  intros Hrun.
  destruct (should_autorenew cert (lineage_of w cert)) eqn:Hdue.
  - destruct (renew cert (length (versions (lineage_of w cert))) w)
      as [r0 w1] eqn:Hrenew.
    rewrite (autorenew_due cert w w1 r0) in Hrun by done.
    apply renew_store_grows in Hrenew.
    destruct r0 as [?|e]; injection Hrun as <- <-; [|done].
    eapply store_grows_trans; [done|]. apply store_grows_events.
  - rewrite autorenew_not_due in Hrun by done. injection Hrun as <- <-.
    apply store_grows_refl.
Qed.

Lemma autodeploy_store_grows (cert : RenewableCert) (w w' : World) (r : result unit) :
  autodeploy cert w = (r, w') → store_grows (λ k, k = lineage cert) w w'.
Proof.
  intros Hrun.
  destruct (should_autodeploy cert (lineage_of w cert)) eqn:Hdue.
  - rewrite autodeploy_due in Hrun by done. injection Hrun as <- <-.
    split_and!; simpl; [| |by eexists].
    + intros key Hkey. by rewrite lookup_insert_ne.
    + intros key. destruct (decide (lineage cert = key)) as [<-|Hne].
      * by rewrite lookup_insert_eq.
      * by rewrite lookup_insert_ne.
  - rewrite autodeploy_not_due in Hrun by done. injection Hrun as <- <-.
    apply store_grows_refl.
Qed.

(** The lineage [main] constructs for an entry is the one kept under the
    path of its configuration file. *)
Lemma RenewableCert_init_lineage (cli_config : RenewerConfiguration) (i : string)
    (rc_config : ConfigObj) (cert : RenewableCert) :
  rc_config_of cli_config i = Ok rc_config →
  RenewableCert_init rc_config cli_config = Ok cert →
  lineage cert = path_join (renewal_configs_dir cli_config) i ∧
  configfile cert = rc_config.
Proof.
  intros Hrc Hcert.
  destruct (RenewableCert_init_Ok _ _ _ Hcert) as (Hfile & _ & Hlineage).
  destruct (rc_config_of_Ok _ _ _ Hrc) as (renewer & lineage_file & _ & _ & ->).
  by rewrite Hlineage.
Qed.

Lemma main_body_store_grows (cli_config : RenewerConfiguration) (i : string)
    (w w' : World) (r : result unit) :
  main_body cli_config i w = (r, w') →
  store_grows (λ k, endswith i ".conf" = true ∧
                    k = path_join (renewal_configs_dir cli_config) i) w w'.
Proof.
  destruct (endswith i ".conf") eqn:Hconf.
  2:{ unfold main_body. mrun. rewrite Hconf. simpl. intros [= <- <-].
      apply store_grows_events. }
  destruct (rc_config_of cli_config i) as [rc_config|e] eqn:Hrc.
  2:{ unfold main_body. mrun. rewrite Hconf, Hrc. simpl. intros [= <- <-].
      apply store_grows_events. }
  destruct (RenewableCert_init rc_config cli_config) as [cert|e] eqn:Hcert.
  2:{ unfold main_body. mrun. rewrite Hconf, Hrc. simpl. rewrite Hcert.
      destruct e; intros [= <- <-]; apply store_grows_events. }
  rewrite (main_body_lineage _ _ rc_config cert) by done.
  destruct (RenewableCert_init_lineage _ _ _ _ Hrc Hcert) as [Hkey _].
  unfold mbind, M_bind.
  destruct (autorenew cert (printed i w)) as [[[]|e] w1] eqn:Hrenew.
  - intros Hdeploy.
    apply store_grows_weaken with (allowed := λ k, k = lineage cert);
      [intros k ->; by rewrite Hkey|].
    eapply store_grows_trans; [apply (store_grows_events _ w)|].
    eapply store_grows_trans; [by eapply autorenew_store_grows|].
    by eapply autodeploy_store_grows.
  - intros [= <- <-].
    apply store_grows_weaken with (allowed := λ k, k = lineage cert);
      [intros k ->; by rewrite Hkey|].
    eapply store_grows_trans; [apply (store_grows_events _ w)|].
    by eapply autorenew_store_grows.
Qed.

Lemma for_each_store_grows (cli_config : RenewerConfiguration) (l : list string)
    (w w' : World) (r : result unit) :
  for_each l (main_body cli_config) w = (r, w') →
  store_grows (λ k, ∃ i, i ∈ l ∧ endswith i ".conf" = true ∧
                         k = path_join (renewal_configs_dir cli_config) i) w w'.
Proof.
  revert w. induction l as [|i l IH]; intros w; simpl.
  - intros [= <- <-]. apply store_grows_refl.
  - mrun. destruct (main_body cli_config i w) as [[[]|e] w1] eqn:Hbody.
    + intros Hrest. eapply store_grows_trans.
      * eapply store_grows_weaken; [|by eapply main_body_store_grows].
        intros k [Hconf ->]. exists i. split; [apply list_elem_of_here|done].
      * eapply store_grows_weaken; [|by apply IH].
        intros k (j & Hj & Hconf & ->). exists j.
        split; [by apply list_elem_of_further|done].
    + intros [= <- <-].
      eapply store_grows_weaken; [|by eapply main_body_store_grows].
      intros k [Hconf ->]. exists i. split; [apply list_elem_of_here|done].
Qed.

(** Every run of [main]: either it ends before the loop with an
    exception and the world as it was, or it is a run of the loop over the
    listing of the directory. *)
Lemma main_cases (config : option ConfigObj) (args : list string)
    (w w' : World) (r : result unit) :
  main config args w = (r, w') →
  (w' = w ∧ ∃ e, r = Raise e) ∨
  (∃ cli_config entries,
     parse_args args = Ok cli_config ∧
     listdir (renewal_configs_dir cli_config) = Ok entries ∧
     for_each entries (main_body cli_config) w = (r, w')).
Proof.
  unfold main, renewer_defaults, ConfigObj_load. mrun.
  destruct (parse_args args) as [cli_config|e]; simpl;
    [|intros [= <- <-]; left; split; [done|by eexists]].
  destruct (read_file (renewer_config_file cli_config)) as [renewer|e]; simpl;
    [|intros [= <- <-]; left; split; [done|by eexists]].
  destruct (listdir (renewal_configs_dir cli_config)) as [entries|e] eqn:Hdir; simpl;
    [|intros [= <- <-]; left; split; [done|by eexists]].
  intros Hrun. right. by exists cli_config, entries.
Qed.

(** X5: a batch run touches no lineage but those of the [.conf] entries of
    the directory: any lineage kept under another path is, whatever the
    outcome of the run, exactly as it was. *)
Theorem main_leaves_other_lineages (config : option ConfigObj) (args : list string)
    (w w' : World) (r : result unit) (k : string) :
  main config args w = (r, w') →
  (∀ cli_config entries i,
     parse_args args = Ok cli_config →
     listdir (renewal_configs_dir cli_config) = Ok entries →
     i ∈ entries →
     endswith i ".conf" = true →
     k ≠ path_join (renewal_configs_dir cli_config) i) →
  lineages w' !! k = lineages w !! k.
Proof.
  intros Hrun Hk.
  destruct (main_cases _ _ _ _ _ Hrun)
    as [(-> & _)|(cli_config & entries & Hargs & Hdir & Hloop)]; [done|].
  apply for_each_store_grows in Hloop as (Hframe & _).
  apply Hframe. intros (i & Hi & Hconf & ->). by eapply Hk.
Qed.

(** X6: a batch run never deletes or rewrites a version: whatever the
    outcome of the run, even an exception, every version of every lineage
    that could be read before the run reads the same after it. *)
Theorem main_keeps_versions (config : option ConfigObj) (args : list string)
    (w w' : World) (r : result unit) (cert : RenewableCert) (n : nat) (v : Version) :
  main config args w = (r, w') →
  version_at (lineage_of w cert) n = Some v →
  version_at (lineage_of w' cert) n = Some v.
Proof.
  intros Hrun.
  destruct (main_cases _ _ _ _ _ Hrun)
    as [(-> & _)|(cli_config & entries & Hargs & Hdir & Hloop)]; [done|].
  apply for_each_store_grows in Hloop as (_ & Hprefix & _).
  destruct n as [|n]; [done|]. simpl. unfold lineage_of.
  intros Hv. eapply prefix_lookup_Some; [exact Hv|apply Hprefix].
Qed.

(** [ConfigObj.merge] of a file without content changes nothing. *)
Lemma merge_empty (self indict : ConfigObj) :
  items indict = ∅ → merge self indict = self.
Proof.
  intros Hempty. destruct self as [m f]. unfold merge. simpl. rewrite Hempty.
  f_equal. apply (right_id ∅ _).
Qed.

(** X9: when the renewer-wide configuration file is absent or empty, the
    merge of line 143 has no effect, as the comment above it says: the
    renewer defaults are the built-in defaults, and the configuration of
    every lineage is just what its own file holds. *)
Theorem empty_renewer_config_file (config : option ConfigObj)
    (cli_config : RenewerConfiguration) :
  read_file (renewer_config_file cli_config) = Ok ∅ →
  renewer_defaults config cli_config = Ok (config_with_defaults config) ∧
  ∀ i, rc_config_of cli_config i =
       ConfigObj_load read_file (path_join (renewal_configs_dir cli_config) i).
Proof.
  intros Hempty. split.
  - unfold renewer_defaults, ConfigObj_load. rewrite Hempty.
    by rewrite merge_empty.
  - intros i. unfold rc_config_of, ConfigObj_load. rewrite Hempty.
    destruct (read_file (path_join _ i)) as [lineage_file|e]; [|done].
    unfold set_filename, merge. simpl. do 2 f_equal. apply (left_id ∅ _).
Qed.

(** X10: deploying twice is deploying once: a second deployment step on
    the same lineage, whether or not it is still found due, leaves the
    store as the first one left it. *)
Theorem autodeploy_idempotent (cert : RenewableCert) (w w1 w2 : World)
    (r1 r2 : result unit) :
  autodeploy cert w = (r1, w1) →
  autodeploy cert w1 = (r2, w2) →
  lineages w2 = lineages w1.
Proof.
  intros Hfirst Hsecond.
  destruct (should_autodeploy cert (lineage_of w1 cert)) eqn:Hdue2.
  2:{ rewrite autodeploy_not_due in Hsecond by done. by injection Hsecond as _ <-. }
  rewrite autodeploy_due in Hsecond by done. injection Hsecond as _ <-. simpl.
  destruct (should_autodeploy cert (lineage_of w cert)) eqn:Hdue1.
  - rewrite autodeploy_due in Hfirst by done. injection Hfirst as _ <-.
    rewrite lineage_of_insert. simpl. by rewrite insert_insert_eq.
  - rewrite autodeploy_not_due in Hfirst by done. injection Hfirst as _ <-.
    congruence.
Qed.

(** The loop body when the lineage is due for nothing. *)
Lemma main_body_nothing_due (cli_config : RenewerConfiguration) (i : string)
    (w : World) :
  (endswith i ".conf" = true →
   ∃ lineage_file,
     read_file (path_join (renewal_configs_dir cli_config) i) = Ok lineage_file) →
  (∃ renewer, read_file (renewer_config_file cli_config) = Ok renewer) →
  (∀ cert l, should_autorenew cert l = false) →
  (∀ cert l, should_autodeploy cert l = false) →
  main_body cli_config i w = (Ok tt, printed i w).
Proof.
  intros Hfile [renewer Hrenewer] Hrenew Hdeploy.
  unfold main_body, rc_config_of, ConfigObj_load, RenewableCert_init. mrun.
  destruct (endswith i ".conf"); [|done]. simpl.
  destruct Hfile as [lineage_file Hfile]; [done|].
  rewrite Hrenewer, Hfile. simpl.
  destruct (forallb _ _); [|done].
  rewrite autorenew_not_due by apply Hrenew.
  by rewrite autodeploy_not_due by apply Hdeploy.
Qed.

(** X7: a batch run whose arguments are accepted, whose directory can be
    listed and whose configuration files (the renewer-wide one and those
    of the [.conf] entries) can all be parsed, and in which no lineage is
    due for renewal or for deployment, returns normally, leaves the store
    as it was, and makes none of the recorded outside calls but printing:
    no authenticator, account or issuance call, no [save_successor], no
    [update_all_links_to], no notification; it prints one "Processing"
    line per directory entry, in the order of the listing. *)
Theorem main_nothing_due (config : option ConfigObj) (args : list string)
    (cli_config : RenewerConfiguration) (entries : list string)
    (renewer : gmap string entry) (w : World) :
  parse_args args = Ok cli_config →
  read_file (renewer_config_file cli_config) = Ok renewer →
  listdir (renewal_configs_dir cli_config) = Ok entries →
  (∀ i, i ∈ entries → endswith i ".conf" = true →
        ∃ lineage_file,
          read_file (path_join (renewal_configs_dir cli_config) i) =
          Ok lineage_file) →
  (∀ cert l, should_autorenew cert l = false) →
  (∀ cert l, should_autodeploy cert l = false) →
  main config args w =
  (Ok tt, mkWorld (lineages w) (trace w ++ map processing_line entries)).
Proof.
  intros Hargs Hrenewer Hdir Hfiles Hrenew Hdeploy.
  unfold main, renewer_defaults, ConfigObj_load. mrun.
  rewrite Hargs. simpl. rewrite Hrenewer. simpl. rewrite Hdir. simpl.
  clear Hdir. revert w. induction entries as [|i l IH]; intros w; simpl.
  - rewrite app_nil_r. by destruct w.
  - mrun. rewrite main_body_nothing_due; [|intros; apply Hfiles; [apply list_elem_of_here|done]|by eexists|done..].
    rewrite IH; [|intros j Hj; apply Hfiles; by apply list_elem_of_further].
    unfold printed. simpl. by rewrite <- app_assoc.
Qed.

(** X8: an entry of the directory whose name does not end in [.conf], or
    whose lineage cannot be constructed ([ValueError]), is skipped: it only
    gets its "Processing" line, and the run goes on with the entries after
    it. *)
Theorem main_skips_entry (config : option ConfigObj) (args : list string)
    (cli_config : RenewerConfiguration) (renewer : gmap string entry)
    (pre rest : list string) (i : string) (w0 w : World) :
  parse_args args = Ok cli_config →
  read_file (renewer_config_file cli_config) = Ok renewer →
  listdir (renewal_configs_dir cli_config) = Ok (pre ++ i :: rest) →
  for_each pre (main_body cli_config) w0 = (Ok tt, w) →
  endswith i ".conf" = false ∨
  (∃ rc_config,
     rc_config_of cli_config i = Ok rc_config ∧
     RenewableCert_init rc_config cli_config = Raise ValueError) →
  main config args w0 =
  for_each rest (main_body cli_config) (printed i w).
Proof.
  intros Hargs Hrenewer Hdir Hpre Hskip.
  rewrite (main_at_entry config args cli_config renewer pre rest i w0 w) by done.
  assert (Hbody : main_body cli_config i w = (Ok tt, printed i w)).
  { unfold main_body. mrun. destruct (endswith i ".conf"); [|done]. simpl.
    destruct Hskip as [?|(rc_config & Hrc & Hinit)]; [done|].
    rewrite Hrc. simpl. by rewrite Hinit. }
  unfold mbind, M_bind. by rewrite Hbody.
Qed.

Lemma quiet_refl (w : World) : quiet w w.
Proof. exists []. by rewrite app_nil_r. Qed.

Lemma quiet_trans (w1 w2 w3 : World) : quiet w1 w2 → quiet w2 w3 → quiet w1 w3.
Proof.
  intros (evs1 & Ht1 & Hq1) (evs2 & Ht2 & Hq2). exists (evs1 ++ evs2).
  rewrite Ht2, Ht1, <- app_assoc, filter_app, Hq1, Hq2. done.
Qed.

Lemma renew_quiet (cert : RenewableCert) (old_version : nat) (w w' : World)
    (r : result pyret) :
  renew cert old_version w = (r, w') → quiet w w'.
Proof.
  intros Hrun. apply renew_run_complete in Hrun.
  inversion Hrun as [ | | ? ? ? ? ? ? ? ? ? ? ? ? ? ? ? ? Hattempt]; subst;
    [apply quiet_refl|apply quiet_refl|].
  inversion Hattempt; subst; by eexists.
Qed.

Lemma autorenew_quiet (cert : RenewableCert) (w w' : World) (r : result unit) :
  autorenew cert w = (r, w') → quiet w w'.
Proof.
  intros Hrun.
  destruct (should_autorenew cert (lineage_of w cert)) eqn:Hdue.
  - destruct (renew cert (length (versions (lineage_of w cert))) w)
      as [r0 w1] eqn:Hrenew.
    rewrite (autorenew_due cert w w1 r0) in Hrun by done.
    apply renew_quiet in Hrenew.
    destruct r0 as [?|e]; injection Hrun as <- <-; [|done].
    eapply quiet_trans; [done|]. by eexists.
  - rewrite autorenew_not_due in Hrun by done. injection Hrun as <- <-.
    apply quiet_refl.
Qed.

Lemma autodeploy_quiet (cert : RenewableCert) (w w' : World) (r : result unit) :
  autodeploy cert w = (r, w') → quiet w w'.
Proof.
  intros Hrun.
  destruct (should_autodeploy cert (lineage_of w cert)) eqn:Hdue.
  - rewrite autodeploy_due in Hrun by done. injection Hrun as <- <-. by eexists.
  - rewrite autodeploy_not_due in Hrun by done. injection Hrun as <- <-.
    apply quiet_refl.
Qed.

(** The loop body prints its line first and nothing after it. *)
Lemma main_body_prints (cli_config : RenewerConfiguration) (i : string)
    (w w' : World) (r : result unit) :
  main_body cli_config i w = (r, w') → quiet (printed i w) w'.
Proof.
  destruct (endswith i ".conf") eqn:Hconf.
  2:{ unfold main_body. mrun. rewrite Hconf. simpl. intros [= <- <-].
      apply quiet_refl. }
  destruct (rc_config_of cli_config i) as [rc_config|e] eqn:Hrc.
  2:{ unfold main_body. mrun. rewrite Hconf, Hrc. simpl. intros [= <- <-].
      apply quiet_refl. }
  destruct (RenewableCert_init rc_config cli_config) as [cert|e] eqn:Hcert.
  2:{ unfold main_body. mrun. rewrite Hconf, Hrc. simpl. rewrite Hcert.
      destruct e; intros [= <- <-]; apply quiet_refl. }
  rewrite (main_body_lineage _ _ rc_config cert) by done.
  unfold mbind, M_bind.
  destruct (autorenew cert (printed i w)) as [[[]|e] w1] eqn:Hrenew.
  - intros Hdeploy. eapply quiet_trans; [by eapply autorenew_quiet|].
    by eapply autodeploy_quiet.
  - intros [= <- <-]. by eapply autorenew_quiet.
Qed.

Lemma for_each_prints (cli_config : RenewerConfiguration) (l : list string)
    (w w' : World) (r : result unit) :
  for_each l (main_body cli_config) w = (r, w') →
  ∃ evs, trace w' = trace w ++ evs ∧
    filter is_print evs `prefix_of` map processing_line l ∧
    (∀ u, r = Ok u → filter is_print evs = map processing_line l).
Proof.
  revert w. induction l as [|i l IH]; intros w; simpl.
  - intros [= <- <-]. exists []. rewrite app_nil_r. by split_and!.
  - mrun. destruct (main_body cli_config i w) as [[[]|e] w1] eqn:Hbody;
      apply main_body_prints in Hbody as (evs1 & Ht1 & Hq1); simpl in Ht1.
    + intros Hrest. destruct (IH _ Hrest) as (evs2 & Ht2 & Hp2 & Hok2).
      exists (processing_line i :: evs1 ++ evs2). split_and!.
      * rewrite Ht2, Ht1, <- !app_assoc. done.
      * rewrite filter_cons_True by done. rewrite filter_app, Hq1. simpl.
        by apply prefix_cons.
      * intros u Hu. rewrite filter_cons_True by done.
        rewrite filter_app, Hq1. simpl. f_equal. by eapply Hok2.
    + intros [= <- <-]. exists (processing_line i :: evs1). split_and!.
      * rewrite Ht1, <- !app_assoc. done.
      * rewrite filter_cons_True by done. rewrite Hq1.
        apply prefix_cons, prefix_nil.
      * done.
Qed.

(** X11: the "Processing" lines of a batch run follow the directory
    listing: the lines printed are those of the first entries of the
    listing, in its order, one each, and all of them when the run returns
    normally; a run that does not get as far as the listing prints
    none. *)
Theorem main_processing_lines (config : option ConfigObj) (args : list string)
    (w w' : World) (r : result unit) (evs : list Event) :
  main config args w = (r, w') →
  trace w' = trace w ++ evs →
  (∀ cli_config entries,
     parse_args args = Ok cli_config →
     listdir (renewal_configs_dir cli_config) = Ok entries →
     filter is_print evs `prefix_of` map processing_line entries ∧
     (∀ u, r = Ok u → filter is_print evs = map processing_line entries)) ∧
  ((∀ cli_config entries,
      parse_args args = Ok cli_config →
      listdir (renewal_configs_dir cli_config) ≠ Ok entries) →
   evs = []).
Proof.
  intros Hrun Htrace.
  destruct (main_cases _ _ _ _ _ Hrun)
    as [(-> & [e ->])|(cli_config & entries & Hargs & Hdir & Hloop)].
  - apply new_events_nil in Htrace as ->. split; [|done].
    intros cli_config entries _ _. split; [apply prefix_nil|done].
  - apply for_each_prints in Hloop as (evs' & Htrace' & Hprefix & Hok).
    rewrite Htrace' in Htrace. apply app_inv_head in Htrace as <-.
    split.
    + intros cli' entries' Hargs' Hdir'.
      rewrite Hargs in Hargs'. injection Hargs' as <-.
      rewrite Hdir in Hdir'. by injection Hdir' as <-.
    + intros Hno. by destruct (Hno cli_config entries).
Qed.

End Renewer.

(** ** The sample installation at work *)

Local Abbreviation ex_renew :=
  (renew ex_registry ex_determine_account ex_obtain_certificate
         ex_get_sans_from_cert).

Local Abbreviation ex_main_body org due deploy :=
  (main_body ex_registry ex_determine_account ex_obtain_certificate
             ex_get_sans_from_cert due deploy ex_required_fields
             ex_config_with_defaults (ex_read_file org) ex_cli_config).

Local Abbreviation ex_main org due deploy :=
  (main ex_registry ex_determine_account ex_obtain_certificate
        ex_get_sans_from_cert due deploy ex_required_fields
        ex_config_with_defaults ex_parse_args ex_listdir (ex_read_file org)).

Lemma renew_not_renewable_witness :
  ex_renew (ex_cert ∅) 1 ex_world = (Ok PyFalse, ex_world).
Proof.
  apply renew_not_renewable. right. exists ∅. split; reflexivity.
Defined.

(** C8, as stated, fails: the authenticator named is unknown to the
    registry, yet [renew] raises [ValueError] on the challenge port instead
    of returning ``False``. *)
Lemma renew_unknown_authenticator_counterexample :
  items (configfile (ex_cert ex_unknown_bad_port)) !! "renewalparams" =
    Some (Section_ ex_unknown_bad_port) ∧
  ex_unknown_bad_port !! "authenticator" = Some (Text "nginx") ∧
  ex_registry !! "nginx" = None ∧
  ex_renew (ex_cert ex_unknown_bad_port) 1 ex_world = (Raise ValueError, ex_world).
Proof. split_and!; reflexivity. Defined.

Lemma renew_unknown_authenticator_witness :
  ex_renew (ex_cert ex_unknown) 1 ex_world = (Ok PyFalse, ex_world).
Proof.
  apply (renew_unknown_authenticator _ _ _ _ _ _ _ ex_unknown "nginx").
  - reflexivity.
  - reflexivity.
  - reflexivity.
  - exists "2048", 2048%Z. split; reflexivity.
  - exists "443", 443%Z. split; reflexivity.
Defined.

(** C10, as stated, fails: both numeric fields are missing from an empty
    renewalparams block, yet [renew] returns ``False`` and raises
    nothing. *)
Lemma renew_coerces_before_lookup_counterexample :
  items (configfile (ex_cert ∅)) !! "renewalparams" = Some (Section_ ∅) ∧
  missing_or_non_numeric ∅ "rsa_key_size" ∧
  missing_or_non_numeric ∅ "dvsni_port" ∧
  ex_renew (ex_cert ∅) 1 ex_world = (Ok PyFalse, ex_world).
Proof. split_and!; [reflexivity|by left|by left|reflexivity]. Defined.

Lemma renew_coerces_before_lookup_witness :
  ex_registry !! "nginx" = None ∧
  ∃ e, ex_renew (ex_cert ex_unknown_bad_port) 1 ex_world = (Raise e, ex_world).
Proof.
  split; [reflexivity|].
  apply (renew_coerces_before_lookup ex_registry ex_determine_account
           ex_obtain_certificate ex_get_sans_from_cert
           (ex_cert ex_unknown_bad_port) 1 ex_world ex_unknown_bad_port
           (Text "nginx")).
  - reflexivity.
  - reflexivity.
  - right. right. left. exists "https". split; reflexivity.
Defined.

Lemma renew_names_from_base_certificate_witness :
  ∃ v, version_at (lineage_of ex_world (ex_cert ex_renewalparams)) 1 = Some v ∧
       ex_get_sans_from_cert (cert_pem v) = Ok ["example.org"; "www.example.org"].
Proof.
  refine (proj1 (renew_names_from_base_certificate
                   ex_registry ex_determine_account ex_obtain_certificate
                   ex_get_sans_from_cert (ex_cert ex_renewalparams) 1 ex_world
                   (ex_renew (ex_cert ex_renewalparams) 1 ex_world).2
                   (Ok (PyInt 2))
                   (trace (ex_renew (ex_cert ex_renewalparams) 1 ex_world).2)
                   ex_client ["example.org"; "www.example.org"] _ _ _)).
  - vm_compute. reflexivity.
  - reflexivity.
  - vm_compute. do 2 apply list_elem_of_further. apply list_elem_of_here.
Defined.

Lemma renew_all_or_nothing_witness :
  latest_common_version (ex_cert ex_renewalparams) ex_world = (Ok 1, ex_world) ∧
  ∃ w', ex_renew (ex_cert ex_renewalparams) 1 ex_world = (Ok (PyInt 2), w') ∧
        latest_common_version (ex_cert ex_renewalparams) w' = (Ok 2, w') ∧
        current_cert (lineage_of w' (ex_cert ex_renewalparams)) = 1.
Proof.
  split; [reflexivity|].
  exists (ex_renew (ex_cert ex_renewalparams) 1 ex_world).2.
  assert (Hrun : ex_renew (ex_cert ex_renewalparams) 1 ex_world =
                 (Ok (PyInt 2), (ex_renew (ex_cert ex_renewalparams) 1 ex_world).2))
    by (vm_compute; reflexivity).
  destruct (renew_all_or_nothing _ _ _ _ _ _ _ _ _ Hrun)
    as (evs & _ & ((m & Hm & Hm' & Hn) & _ & _ & Hcur & _) & _).
  injection Hn as <-.
  split_and!; [exact Hrun|exact Hm'|exact Hcur].
Defined.

(** C2, as stated, fails: the key size of example.org is not a number;
    the exception of [renew] leaves [main], and example.net, next in the
    directory, is never processed. *)
Lemma main_non_numeric_field_counterexample :
  non_numeric_field ex_bad_key_size "rsa_key_size" ∧
  ex_listdir (renewal_configs_dir ex_cli_config) =
    Ok ["example.org.conf"; "example.net.conf"] ∧
  ex_main (ex_items ex_bad_key_size) ex_always ex_always None [] ex_world =
    (Raise ValueError,
     mkWorld (lineages ex_world) [EvPrint "Processing example.org.conf"]).
Proof.
  split_and!; [exists "abc"; split; reflexivity|reflexivity|].
  vm_compute. reflexivity.
Qed.

Lemma main_aborts_on_non_numeric_field_witness :
  ∃ e,
    ex_main (ex_items ex_bad_key_size) ex_always ex_always None [] ex_world =
      (Raise e, printed "example.org.conf" ex_world).
Proof.
  destruct (main_aborts_on_non_numeric_field
              ex_registry ex_determine_account ex_obtain_certificate
              ex_get_sans_from_cert ex_always ex_always ex_required_fields
              ex_config_with_defaults ex_parse_args ex_listdir
              (ex_read_file (ex_items ex_bad_key_size)) None [] ex_cli_config
              [] ["example.net.conf"] "example.org.conf" ex_world ex_world
              (configfile (ex_cert ex_bad_key_size))
              (ex_cert ex_bad_key_size) ex_bad_key_size (Text "standalone"))
    as (e & _ & Hmain).
  - reflexivity.
  - reflexivity.
  - reflexivity.
  - reflexivity.
  - vm_compute. reflexivity.
  - vm_compute. reflexivity.
  - reflexivity.
  - reflexivity.
  - reflexivity.
  - left. exists "abc". split; reflexivity.
  - exists e. exact Hmain.
Defined.

(** C3, as stated, fails: [prepare()] of the authenticator of example.org
    raises; [renew] returns nothing, the exception leaves [main], and
    example.net is never processed. *)
Lemma main_prepare_failure_counterexample :
  ex_renew (ex_cert ex_misconfigured) 1 ex_world =
    (Raise (OtherError "MisconfigurationError"),
     mkWorld (lineages ex_world) [EvPrepare "apache"]) ∧
  ex_main (ex_items ex_misconfigured) ex_always ex_always None [] ex_world =
    (Raise (OtherError "MisconfigurationError"),
     mkWorld (lineages ex_world)
             [EvPrint "Processing example.org.conf"; EvPrepare "apache"]).
Proof. split; vm_compute; reflexivity. Qed.

Lemma main_aborts_on_prepare_failure_witness :
  ∃ w', ex_main (ex_items ex_misconfigured) ex_always ex_always None [] ex_world =
          (Raise (OtherError "MisconfigurationError"), w') ∧
        lineages w' = lineages ex_world.
Proof.
  destruct (main_aborts_on_prepare_failure
              ex_registry ex_determine_account ex_obtain_certificate
              ex_get_sans_from_cert ex_always ex_always ex_required_fields
              ex_config_with_defaults ex_parse_args ex_listdir
              (ex_read_file (ex_items ex_misconfigured)) None [] ex_cli_config
              [] ["example.net.conf"] "example.org.conf" ex_world ex_world
              (configfile (ex_cert ex_misconfigured))
              (ex_cert ex_misconfigured) ex_misconfigured
              "apache" "2048" "443" 2048%Z 443%Z
              (mkPluginEntryPoint
                 (λ _, mkAuthenticator "apache"
                         (Raise (OtherError "MisconfigurationError"))))
              (OtherError "MisconfigurationError"))
    as (_ & w' & Hmain & Hstore & _).
  - reflexivity.
  - reflexivity.
  - reflexivity.
  - reflexivity.
  - vm_compute. reflexivity.
  - vm_compute. reflexivity.
  - reflexivity.
  - reflexivity.
  - reflexivity.
  - reflexivity.
  - reflexivity.
  - reflexivity.
  - reflexivity.
  - reflexivity.
  - reflexivity.
  - exists w'. split; [exact Hmain|exact Hstore].
Defined.

(** C4: the code at a lineage that is due for renewal and has no
    renewalparams block.  [renew] returns ``False``, and [main] still sends
    the notification of a renewal. *)
Theorem main_notifies_without_renewal :
  ex_renew (mkRenewableCert
              (mkConfigObj ex_no_renewalparams (Some ex_org))
              (merge (ex_config_with_defaults None)
                     (mkConfigObj ex_no_renewalparams (Some ex_org)))
              ex_org)
           1 (printed "example.org.conf" ex_world) =
    (Ok PyFalse, printed "example.org.conf" ex_world) ∧
  ex_main ex_no_renewalparams ex_org_only ex_never None [] ex_world =
    (Ok tt,
     mkWorld (lineages ex_world)
             [EvPrint "Processing example.org.conf";
              EvNotify "Autorenewed a cert!!!" "root" "It worked!";
              EvPrint "Processing example.net.conf"]).
Proof. split; vm_compute; reflexivity. Qed.

Lemma lineage_configuration_layers_witness :
  items (configuration (ex_cert ex_renewalparams)) !! "renew_before_expiry" =
    Some (Scalar (Text "30 days")) ∧
  items (configuration (ex_cert ex_renewalparams)) !! "cert" =
    Some (Scalar (Text "/etc/letsencrypt/live/example.org/cert.pem")).
Proof.
  destruct (lineage_configuration_layers
              ex_registry ex_determine_account ex_obtain_certificate
              ex_get_sans_from_cert ex_always ex_always ex_required_fields
              ex_config_with_defaults (ex_read_file (ex_items ex_renewalparams))
              ex_cli_config "example.org.conf" ex_world
              ∅ (ex_items ex_renewalparams)
              (configfile (ex_cert ex_renewalparams))
              (ex_cert ex_renewalparams))
    as (_ & _ & Hdefault & Hfile & _).
  - reflexivity.
  - reflexivity.
  - reflexivity.
  - vm_compute. reflexivity.
  - vm_compute. reflexivity.
  - split.
    + rewrite (Hdefault "renew_before_expiry"); reflexivity.
    + apply Hfile. reflexivity.
Defined.

Lemma renew_latest_then_deploy_latest_witness :
  ∃ w2,
    ex_main (ex_items ex_renewalparams) ex_always ex_always None [] ex_world =
      for_each ["example.net.conf"]
        (ex_main_body (ex_items ex_renewalparams) ex_always ex_always) w2 ∧
    latest_common_version (ex_cert ex_renewalparams) w2 = (Ok 2, w2) ∧
    current_cert (lineage_of w2 (ex_cert ex_renewalparams)) = 2 ∧
    current_privkey (lineage_of w2 (ex_cert ex_renewalparams)) = 2 ∧
    current_chain (lineage_of w2 (ex_cert ex_renewalparams)) = 2.
Proof.
  destruct (renew_latest_then_deploy_latest
              ex_registry ex_determine_account ex_obtain_certificate
              ex_get_sans_from_cert ex_always ex_always ex_required_fields
              ex_config_with_defaults ex_parse_args ex_listdir
              (ex_read_file (ex_items ex_renewalparams)) None [] ex_cli_config
              [] ["example.net.conf"] "example.org.conf" ex_world ex_world
              (configfile (ex_cert ex_renewalparams))
              (ex_cert ex_renewalparams))
    as (_ & _ & _ & Hpass).
  - reflexivity.
  - reflexivity.
  - reflexivity.
  - reflexivity.
  - vm_compute. reflexivity.
  - vm_compute. reflexivity.
  - destruct (Hpass 1 2
                (ex_renew (ex_cert ex_renewalparams) 1
                          (printed "example.org.conf" ex_world)).2)
      as (w2 & Hrun & _ & Hlatest & Hcur).
    + reflexivity.
    + reflexivity.
    + vm_compute. reflexivity.
    + reflexivity.
    + exists w2. split_and!; [exact Hrun|exact Hlatest|apply Hcur..].
Defined.

(** The scenarios of a successful renewal and of an issuance without a
    chain, evaluated. *)
Example renew_success_example :
  ∃ w', ex_renew (ex_cert ex_renewalparams) 1 ex_world = (Ok (PyInt 2), w') ∧
        versions (lineage_of w' (ex_cert ex_renewalparams)) =
          [mkVersion "CERT-1" "KEY-1" "CHAIN-1"; mkVersion "CERT-2" "KEY-2" "CHAIN-2"].
Proof. eexists. split; vm_compute; reflexivity. Qed.

Example renew_no_chain_example :
  ∃ w', ex_renew (ex_cert (<["dvsni_port" := Text "8443"]> ex_renewalparams)) 1 ex_world =
          (Ok PyFalse, w') ∧
        lineages w' = lineages ex_world.
Proof. eexists. split; vm_compute; reflexivity. Qed.

Example py_int_examples :
  py_int "2048" = Some 2048%Z ∧ py_int " 443 " = Some 443%Z ∧
  py_int "-1" = Some (-1)%Z ∧ py_int "abc" = None ∧ py_int "" = None ∧
  py_int "44 3" = None.
Proof. by split_and!. Qed.

(** A key size written [2,048] reaches [int] as a list: [TypeError]. *)
Example renew_list_key_size_example :
  ex_renew (ex_cert ex_list_key_size) 1 ex_world = (Raise TypeError, ex_world) ∧
  ex_main (ex_items ex_list_key_size) ex_always ex_always None [] ex_world =
    (Raise TypeError,
     mkWorld (lineages ex_world) [EvPrint "Processing example.org.conf"]).
Proof. split; vm_compute; reflexivity. Qed.

(** A configuration file that configobj cannot parse ends the run: the
    load of lines 149-151 is outside the [try] of [main]. *)
Example main_malformed_file_example :
  main ex_registry ex_determine_account ex_obtain_certificate
       ex_get_sans_from_cert ex_never ex_never ex_required_fields
       ex_config_with_defaults ex_parse_args ex_listdir ex_read_file_malformed
       None [] ex_world =
  (Raise (OtherError "ParseError"),
   mkWorld (lineages ex_world) [EvPrint "Processing example.org.conf"]).
Proof. vm_compute. reflexivity. Qed.

(** ** More runs of the sample installation *)

Lemma renew_call_order_witness :
  call_order (trace (ex_renew (ex_cert ex_renewalparams) 1 ex_world).2) = true ∧
  length (trace (ex_renew (ex_cert ex_renewalparams) 1 ex_world).2) = 4.
Proof.
  destruct (renew_call_order ex_registry ex_determine_account
              ex_obtain_certificate ex_get_sans_from_cert
              (ex_cert ex_renewalparams) 1 ex_world
              (ex_renew (ex_cert ex_renewalparams) 1 ex_world).2
              (Ok (PyInt 2))
              (trace (ex_renew (ex_cert ex_renewalparams) 1 ex_world).2))
    as [Horder Hlen].
  - vm_compute. reflexivity.
  - reflexivity.
  - split; [exact Horder|]. apply Hlen. by exists 2.
Defined.

Lemma renew_absent_base_version_witness :
  version_at (lineage_of ex_world (ex_cert ex_renewalparams)) 5 = None ∧
  (ex_renew (ex_cert ex_renewalparams) 5 ex_world).1 = Raise IOError ∧
  lineages (ex_renew (ex_cert ex_renewalparams) 5 ex_world).2 = lineages ex_world.
Proof.
  split; [reflexivity|]. split; [reflexivity|].
  refine (proj1 (renew_absent_base_version ex_registry ex_determine_account
                   ex_obtain_certificate ex_get_sans_from_cert
                   (ex_cert ex_renewalparams) 5 ex_world
                   (ex_renew (ex_cert ex_renewalparams) 5 ex_world).2
                   (ex_renew (ex_cert ex_renewalparams) 5 ex_world).1
                   (trace (ex_renew (ex_cert ex_renewalparams) 5 ex_world).2)
                   _ _ _)).
  - apply surjective_pairing.
  - reflexivity.
  - reflexivity.
Defined.


Lemma renew_uses_named_authenticator_witness :
  ∃ entry_point,
    ex_registry !! "standalone" = Some entry_point ∧
    client_authenticator ex_client = init entry_point (client_config ex_client) ∧
    prepare (client_authenticator ex_client) = Ok tt.
Proof.
  destruct (renew_uses_named_authenticator ex_registry ex_determine_account
              ex_obtain_certificate ex_get_sans_from_cert
              (ex_cert ex_renewalparams) 1 ex_world
              (ex_renew (ex_cert ex_renewalparams) 1 ex_world).2
              (Ok (PyInt 2))
              (trace (ex_renew (ex_cert ex_renewalparams) 1 ex_world).2)
              ex_client ["example.org"; "www.example.org"])
    as (rp & name & ep & ks & ps & Hrp & Hname & Hep & Hns & _ & _ & _ & _ & Hauth & Hprep & _).
  - vm_compute. reflexivity.
  - reflexivity.
  - vm_compute. do 2 apply list_elem_of_further. apply list_elem_of_here.
  - exists ep. split_and!; [|exact Hauth|exact Hprep].
    rewrite <- Hep. f_equal.
    injection Hrp as Hrp. rewrite <- Hrp in Hname. vm_compute in Hname.
    by injection Hname as <-.
Defined.

Lemma main_leaves_other_lineages_witness :
  lineages (ex_main (ex_items ex_renewalparams) ex_always ex_always None []
                    ex_world_other).2 !! ex_other =
  lineages ex_world_other !! ex_other.
Proof.
  apply (main_leaves_other_lineages ex_registry ex_determine_account
           ex_obtain_certificate ex_get_sans_from_cert ex_always ex_always
           ex_required_fields ex_config_with_defaults ex_parse_args ex_listdir
           (ex_read_file (ex_items ex_renewalparams)) None [] ex_world_other
           (ex_main (ex_items ex_renewalparams) ex_always ex_always None []
                    ex_world_other).2
           (ex_main (ex_items ex_renewalparams) ex_always ex_always None []
                    ex_world_other).1).
  - apply surjective_pairing.
  - intros cli_config entries i [= <-] [= <-] Hi _ Heq.
    apply elem_of_cons in Hi as [->|Hi]; [vm_compute in Heq; discriminate|].
    apply elem_of_cons in Hi as [->|Hi]; [vm_compute in Heq; discriminate|].
    by apply elem_of_nil in Hi.
Defined.

Lemma main_keeps_versions_witness :
  version_at (lineage_of (ex_main (ex_items ex_renewalparams) ex_always
                                  ex_always None [] ex_world).2
                         (ex_cert ex_renewalparams)) 1 =
  Some (mkVersion "CERT-1" "KEY-1" "CHAIN-1").
Proof.
  apply (main_keeps_versions ex_registry ex_determine_account
           ex_obtain_certificate ex_get_sans_from_cert ex_always ex_always
           ex_required_fields ex_config_with_defaults ex_parse_args ex_listdir
           (ex_read_file (ex_items ex_renewalparams)) None [] ex_world
           (ex_main (ex_items ex_renewalparams) ex_always ex_always None []
                    ex_world).2
           (ex_main (ex_items ex_renewalparams) ex_always ex_always None []
                    ex_world).1).
  - apply surjective_pairing.
  - reflexivity.
Defined.

Lemma main_nothing_due_witness :
  ex_main (ex_items ex_renewalparams) ex_never ex_never None [] ex_world =
  (Ok tt,
   mkWorld (lineages ex_world)
           [processing_line "example.org.conf";
            processing_line "example.net.conf"]).
Proof.
  apply (main_nothing_due ex_registry ex_determine_account
           ex_obtain_certificate ex_get_sans_from_cert ex_never ex_never
           ex_required_fields ex_config_with_defaults ex_parse_args ex_listdir
           (ex_read_file (ex_items ex_renewalparams)) None [] ex_cli_config
           ["example.org.conf"; "example.net.conf"] ∅ ex_world).
  - reflexivity.
  - reflexivity.
  - reflexivity.
  - intros i Hi _.
    apply elem_of_cons in Hi as [->|Hi]; [by eexists|].
    apply elem_of_cons in Hi as [->|Hi]; [by eexists|].
    by apply elem_of_nil in Hi.
  - intros cert l. reflexivity.
  - intros cert l. reflexivity.
Defined.

Lemma main_skips_entry_witness :
  ex_main ∅ ex_always ex_always None [] ex_world =
  for_each ["example.net.conf"] (ex_main_body ∅ ex_always ex_always)
    (printed "example.org.conf" ex_world).
Proof.
  apply (main_skips_entry ex_registry ex_determine_account
           ex_obtain_certificate ex_get_sans_from_cert ex_always ex_always
           ex_required_fields ex_config_with_defaults ex_parse_args ex_listdir
           (ex_read_file ∅) None [] ex_cli_config ∅ [] ["example.net.conf"]
           "example.org.conf" ex_world ex_world).
  - reflexivity.
  - reflexivity.
  - reflexivity.
  - reflexivity.
  - right. exists (mkConfigObj ∅ (Some ex_org)). split; vm_compute; reflexivity.
Defined.

Lemma empty_renewer_config_file_witness :
  renewer_defaults ex_config_with_defaults
    (ex_read_file (ex_items ex_renewalparams)) None ex_cli_config =
  Ok (ex_config_with_defaults None).
Proof.
  apply (empty_renewer_config_file ex_config_with_defaults
           (ex_read_file (ex_items ex_renewalparams)) None ex_cli_config).
  reflexivity.
Defined.

Lemma autodeploy_idempotent_witness :
  lineages (autodeploy ex_always (ex_cert ex_renewalparams)
              (autodeploy ex_always (ex_cert ex_renewalparams) ex_world).2).2 =
  lineages (autodeploy ex_always (ex_cert ex_renewalparams) ex_world).2.
Proof.
  apply (autodeploy_idempotent ex_always (ex_cert ex_renewalparams) ex_world
           (autodeploy ex_always (ex_cert ex_renewalparams) ex_world).2
           (autodeploy ex_always (ex_cert ex_renewalparams)
              (autodeploy ex_always (ex_cert ex_renewalparams) ex_world).2).2
           (autodeploy ex_always (ex_cert ex_renewalparams) ex_world).1
           (autodeploy ex_always (ex_cert ex_renewalparams)
              (autodeploy ex_always (ex_cert ex_renewalparams) ex_world).2).1).
  - apply surjective_pairing.
  - apply surjective_pairing.
Defined.

Lemma main_processing_lines_witness :
  filter is_print
    (trace (ex_main (ex_items ex_bad_key_size) ex_always ex_always None []
                    ex_world).2)
  `prefix_of` [processing_line "example.org.conf";
               processing_line "example.net.conf"].
Proof.
  destruct (main_processing_lines ex_registry ex_determine_account
              ex_obtain_certificate ex_get_sans_from_cert ex_always ex_always
              ex_required_fields ex_config_with_defaults ex_parse_args
              ex_listdir (ex_read_file (ex_items ex_bad_key_size)) None []
              ex_world
              (ex_main (ex_items ex_bad_key_size) ex_always ex_always None []
                       ex_world).2
              (ex_main (ex_items ex_bad_key_size) ex_always ex_always None []
                       ex_world).1
              (trace (ex_main (ex_items ex_bad_key_size) ex_always ex_always
                              None [] ex_world).2))
    as [Hlines _].
  - apply surjective_pairing.
  - reflexivity.
  - apply (Hlines ex_cli_config ["example.org.conf"; "example.net.conf"]);
      reflexivity.
Defined.
